(** * HMI dashboard: ingest-to-render pipeline

  A shallow embedding of the metrics store ([stores/metrics.ts]), the
  frame scheduler of [HmiDashboard.vue] and the render worker
  ([workers/renderWorker.ts]).

  JavaScript numbers are modelled as exact rationals ([Q]) and compared
  with [==]; array indices are natural numbers.  The worker's module
  variables are the fields of one record, threaded through a small monad
  that also logs the calls on the drawing context and the messages
  posted, and lets a [throw] end a handler with the state as it was left.
  [performance.now()] answers from a sequence of readings kept with that
  state; the timestamp of an animation frame is an argument of the frame
  callback. *)

From Stdlib Require Import QArith Qround Lqa Sorting.Sorted Permutation.
From stdpp Require Import gmap strings list fin_maps sorting.

Local Open Scope Z_scope.
Local Open Scope Q_scope.
Local Open Scope stdpp_scope.

Definition number := Q.

(* ===================================================================== *)
(** ** stores/metrics.ts *)
(* ===================================================================== *)

Module MetricsStore.

Record MetricPayload := mkPayload {
  metric : string;
  label : string;
  unit : string;
  value : number;
  timestamp : number
}.

Record DebugStats := mkDebug {
  fps : number;
  renderMs : number;
  latencyP50 : number;
  latencyP95 : number
}.

(** The closure state of [useMetricsStore]. *)
Record Store := mkStore {
  metrics : gmap string MetricPayload;
  queue : list MetricPayload;
  debug : DebugStats
}.

Definition empty : Store :=
  {| metrics := ∅; queue := []; debug := mkDebug 0 0 0 0 |}.

Definition addMeasurement (payload : MetricPayload) (s : Store) : Store :=
  {| metrics := <[metric payload := payload]> (metrics s);
     queue := queue s ++ [payload];
     debug := debug s |}.

(** [queue.splice(0, n)] removes the first [n] elements in place and
    returns them. *)
Definition splice0 {A} (n : nat) (q : list A) : list A * list A :=
  (take n q, drop n q).

Definition dequeueBatch (s : Store) : list MetricPayload * Store :=
  if (length (queue s) =? 0)%nat then ([], s)
  else
    let '(removed, rest) := splice0 (length (queue s)) (queue s) in
    (removed, {| metrics := metrics s; queue := rest; debug := debug s |}).

(** [Object.assign(debug, next)] with [next : Partial<DebugStats>]. *)
Record PartialDebugStats := mkPartial {
  p_fps : option number;
  p_renderMs : option number;
  p_latencyP50 : option number;
  p_latencyP95 : option number
}.

Definition updateDebug (next : PartialDebugStats) (s : Store) : Store :=
  {| metrics := metrics s;
     queue := queue s;
     debug :=
       {| fps := default (fps (debug s)) (p_fps next);
          renderMs := default (renderMs (debug s)) (p_renderMs next);
          latencyP50 := default (latencyP50 (debug s)) (p_latencyP50 next);
          latencyP95 := default (latencyP95 (debug s)) (p_latencyP95 next) |} |}.

(** A caller's view: a sequence of calls on the store, and the results
    of the [dequeueBatch] calls among them, in call order. *)
Inductive Call :=
| Add (payload : MetricPayload)
| Drain.

Fixpoint run (calls : list Call) (s : Store) : list (list MetricPayload) * Store :=
  match calls with
  | [] => ([], s)
  | Add p :: rest => run rest (addMeasurement p s)
  | Drain :: rest =>
      let '(batch, s') := dequeueBatch s in
      let '(batches, s'') := run rest s' in
      (batch :: batches, s'')
  end.

(** The payloads passed to [addMeasurement], in call order. *)
Fixpoint added (calls : list Call) : list MetricPayload :=
  match calls with
  | [] => []
  | Add p :: rest => p :: added rest
  | Drain :: rest => added rest
  end.

End MetricsStore.

(* ===================================================================== *)
(** ** workers/renderWorker.ts *)
(* ===================================================================== *)

Module RenderWorker.

(** The result type of a function that returns nothing. *)
Abbreviation void := Datatypes.unit (only parsing).

Record MetricDescriptor := mkDescriptor {
  metric : string;
  label : string;
  unit : string
}.

(** [interface MetricRenderState extends MetricDescriptor]: the
    descriptor fields are reached through the coercion. *)
Record MetricRenderState := mkRenderState {
  descriptor :> MetricDescriptor;
  value : number;
  timestamp : number
}.

(** Comparisons of numbers, decided on the cross products. *)
#[export] Instance Qle_dec : RelDecision Qle :=
  λ a b, decide (Qnum a * QDen b ≤ Qnum b * QDen a)%Z.
#[export] Instance Qlt_dec : RelDecision Qlt :=
  λ a b, decide (Qnum a * QDen b < Qnum b * QDen a)%Z.

Definition of_nat (n : nat) : number := inject_Z (Z.of_nat n).
Definition Math_floor (a : number) : Z := Qfloor a.
Definition Math_ceil (a : number) : Z := Qceiling a.

(** What a read of a numeric array slot, or arithmetic on it, can give. *)
Inductive jsnum :=
| Num (x : number)
| Undefined
| NaN.

Definition jsmul (a b : jsnum) : jsnum :=
  match a, b with
  | Num x, Num y => Num (x * y)
  | _, _ => NaN
  end.

Definition jsadd (a b : jsnum) : jsnum :=
  match a, b with
  | Num x, Num y => Num (x + y)
  | _, _ => NaN
  end.

(** [arr[i]] for a numeric [i] that holds an integer. *)
Definition at_index (arr : list number) (i : Z) : jsnum :=
  if (i <? 0)%Z then Undefined
  else match arr !! Z.to_nat i with
       | Some x => Num x
       | None => Undefined
       end.

(** *** Canvas and messages *)

Record OffscreenCanvas := mkCanvas {
  canvasWidth : number;
  canvasHeight : number;
  (** whether [getContext('2d')] yields a context *)
  supports2d : bool
}.

Inductive Context2D := Ctx2D.

Definition getContext2d (c : OffscreenCanvas) : option Context2D :=
  if supports2d c then Some Ctx2D else None.

Inductive Text :=
| Str (s : string)
| NumStr (x : number).

(** The calls made on the 2D context, in program order. *)
Inductive DrawOp :=
| SetImageSmoothingEnabled (b : bool)
| SetTextBaseline (s : string)
| SetTransform (a b c d e f : number)
| Save
| Restore
| BeginPath
| Rect (x y w h : number)
| Clip
| SetFillStyle (color : string)
| SetGlobalAlpha (a : number)
| SetFont (px : number) (family fallback : string)
| FillRect (x y w h : number)
| FillText (t : Text) (x y : number)
| ClearRect (x y w h : number).

Record DebugMessage := mkDebugMessage {
  msg_fps : number;
  msg_renderMs : number;
  msg_latencyP50 : jsnum;
  msg_latencyP95 : jsnum
}.

Inductive Effect :=
| Draw (op : DrawOp)
| PostMessage (m : DebugMessage)
| RequestAnimationFrame.

Inductive WorkerMessage :=
| Init (canvas : OffscreenCanvas) (metrics : list MetricDescriptor)
       (width height devicePixelRatio : number)
| Resize (width height devicePixelRatio : number)
| MetricsBatch (updates : list MetricRenderState).

(** *** Module state *)

Record Worker := mkWorker {
  canvas : option OffscreenCanvas;
  ctx : option Context2D;
  width : number;
  height : number;
  dpr : number;
  metrics : list MetricDescriptor;
  metricState : gmap string MetricRenderState;
  dirtyMetrics : gset string;
  needsFullRedraw : bool;
  lastFrameTime : number;
  fps : number;
  renderMs : number;
  latencySamples : list number;
  (** [performance.now()]: the readings to come and how many were taken *)
  clock : nat → number;
  clockReads : nat
}.

Definition initial (clock : nat → number) : Worker :=
  {| canvas := None; ctx := None;
     width := 1280; height := 720; dpr := 1;
     metrics := [];
     metricState := ∅;
     dirtyMetrics := ∅;
     needsFullRedraw := true;
     lastFrameTime := clock 0%nat;
     fps := 60; renderMs := 0;
     latencySamples := [];
     clock := clock; clockReads := 1 |}.

(** Assignments to the module variables. *)
Definition set_canvas v (w : Worker) : Worker :=
  let '(mkWorker cv cx wd ht d ms st dirty full last f r samples clk reads) := w in
  mkWorker v cx wd ht d ms st dirty full last f r samples clk reads.
Definition set_ctx v (w : Worker) : Worker :=
  let '(mkWorker cv cx wd ht d ms st dirty full last f r samples clk reads) := w in
  mkWorker cv v wd ht d ms st dirty full last f r samples clk reads.
Definition set_width v (w : Worker) : Worker :=
  let '(mkWorker cv cx wd ht d ms st dirty full last f r samples clk reads) := w in
  mkWorker cv cx v ht d ms st dirty full last f r samples clk reads.
Definition set_height v (w : Worker) : Worker :=
  let '(mkWorker cv cx wd ht d ms st dirty full last f r samples clk reads) := w in
  mkWorker cv cx wd v d ms st dirty full last f r samples clk reads.
Definition set_dpr v (w : Worker) : Worker :=
  let '(mkWorker cv cx wd ht d ms st dirty full last f r samples clk reads) := w in
  mkWorker cv cx wd ht v ms st dirty full last f r samples clk reads.
Definition set_metrics v (w : Worker) : Worker :=
  let '(mkWorker cv cx wd ht d ms st dirty full last f r samples clk reads) := w in
  mkWorker cv cx wd ht d v st dirty full last f r samples clk reads.
Definition set_metricState v (w : Worker) : Worker :=
  let '(mkWorker cv cx wd ht d ms st dirty full last f r samples clk reads) := w in
  mkWorker cv cx wd ht d ms v dirty full last f r samples clk reads.
Definition set_dirtyMetrics v (w : Worker) : Worker :=
  let '(mkWorker cv cx wd ht d ms st dirty full last f r samples clk reads) := w in
  mkWorker cv cx wd ht d ms st v full last f r samples clk reads.
Definition set_needsFullRedraw v (w : Worker) : Worker :=
  let '(mkWorker cv cx wd ht d ms st dirty full last f r samples clk reads) := w in
  mkWorker cv cx wd ht d ms st dirty v last f r samples clk reads.
Definition set_lastFrameTime v (w : Worker) : Worker :=
  let '(mkWorker cv cx wd ht d ms st dirty full last f r samples clk reads) := w in
  mkWorker cv cx wd ht d ms st dirty full v f r samples clk reads.
Definition set_fps v (w : Worker) : Worker :=
  let '(mkWorker cv cx wd ht d ms st dirty full last f r samples clk reads) := w in
  mkWorker cv cx wd ht d ms st dirty full last v r samples clk reads.
Definition set_renderMs v (w : Worker) : Worker :=
  let '(mkWorker cv cx wd ht d ms st dirty full last f r samples clk reads) := w in
  mkWorker cv cx wd ht d ms st dirty full last f v samples clk reads.
Definition set_latencySamples v (w : Worker) : Worker :=
  let '(mkWorker cv cx wd ht d ms st dirty full last f r samples clk reads) := w in
  mkWorker cv cx wd ht d ms st dirty full last f r v clk reads.
Definition set_clockReads v (w : Worker) : Worker :=
  let '(mkWorker cv cx wd ht d ms st dirty full last f r samples clk reads) := w in
  mkWorker cv cx wd ht d ms st dirty full last f r samples clk v.

(** *** A computation of the worker

    It runs on the module state, logs the effects it has on the outside
    and completes normally or by a [throw]; the state changes made before
    a [throw] stay. *)

Inductive Completion (A : Type) :=
| Normal (a : A)
| Thrown (error : string).
Arguments Normal {A} a.
Arguments Thrown {A} error.

Definition M (A : Type) : Type := Worker → Completion A * Worker * list Effect.

#[export] Instance M_ret : MRet M := λ A a w, (Normal a, w, []).

#[export] Instance M_bind : MBind M := λ A B f m w,
  match m w with
  | (Normal a, w', out) =>
      let '(r, w'', out') := f a w' in (r, w'', out ++ out')
  | (Thrown e, w', out) => (Thrown e, w', out)
  end.

Definition throw {A} (e : string) : M A := λ w, (Thrown e, w, []).
Definition gets {A} (f : Worker → A) : M A := λ w, (Normal (f w), w, []).
Definition modify (f : Worker → Worker) : M void := λ w, (Normal tt, f w, []).
Definition emit (e : Effect) : M void := λ w, (Normal tt, w, [e]).

Definition performance_now : M number := λ w,
  (Normal (clock w (clockReads w)), set_clockReads (S (clockReads w)) w, []).

Definition state_after {A} (m : M A) (w : Worker) : Worker := snd (fst (m w)).
Definition effects_of {A} (m : M A) (w : Worker) : list Effect := snd (m w).
Definition completion_of {A} (m : M A) (w : Worker) : Completion A := fst (fst (m w)).

(** [arr.forEach((x, index) => ...)] *)
Fixpoint forEachFrom {A} (f : A → nat → M void) (index : nat) (arr : list A) : M void :=
  match arr with
  | [] => mret tt
  | x :: rest => f x index ;; forEachFrom f (S index) rest
  end.

Definition forEach {A} (f : A → nat → M void) (arr : list A) : M void :=
  forEachFrom f 0 arr.

(** The context calls of a function that has checked [ctx]. *)
Fixpoint draw (ops : list DrawOp) : M void :=
  match ops with
  | [] => mret tt
  | op :: rest => emit (Draw op) ;; draw rest
  end.

(** *** Functions of the module *)

Definition backgroundColor : string := "#0c1018".
Definition cardColor : string := "#1f2a3b".
Definition accentColor : string := "#4dd0e1".
Definition valueColor : string := "#f4faff".
Definition textColor : string := "#9db0c6".

Definition ensureContext : M void :=
  c ← gets canvas;
  match c with
  | None => mret tt
  | Some cv =>
      modify (set_ctx (getContext2d cv)) ;;
      k ← gets ctx;
      match k with
      | None => throw "Unable to acquire 2D context"
      | Some _ =>
          d ← gets dpr;
          draw [SetImageSmoothingEnabled true; SetTextBaseline "middle";
                SetTransform d 0 0 d 0 0]
      end
  end.

Definition resize (nextWidth nextHeight nextDpr : number) : M void :=
  modify (set_width nextWidth) ;;
  modify (set_height nextHeight) ;;
  modify (set_dpr nextDpr) ;;
  c ← gets canvas;
  match c with
  | None => mret tt
  | Some cv =>
      modify (λ w, set_canvas
                     (Some (mkCanvas (width w * dpr w) (height w * dpr w) (supports2d cv))) w) ;;
      ensureContext ;;
      modify (set_dirtyMetrics ∅) ;;
      ms ← gets metrics;
      forEach (λ m _, modify (λ w, set_dirtyMetrics (dirtyMetrics w ∪ {[metric m]}) w)) ms ;;
      modify (set_needsFullRedraw true)
  end.

(** The comparator [(a, b) => a - b] and the order [sort] puts the
    array in with it: [a] may stand before [b] when the comparator is
    not positive. *)
Definition compareFn (a b : number) : number := a - b.
Definition ascending (a b : number) : Prop := compareFn a b <= 0.

#[export] Instance ascending_dec : RelDecision ascending :=
  λ a b, decide (compareFn a b <= 0).

Definition sort (values : list number) : list number :=
  merge_sort ascending values.

Definition quantile (values : list number) (q : number) : jsnum :=
  if (length values =? 0)%nat then Num 0
  else
    let sorted := sort values in
    let index := (of_nat (length sorted) - 1) * q in
    let lower := Math_floor index in
    let upper := Math_ceil index in
    if (lower =? upper)%Z then at_index sorted lower
    else
      let weight := index - inject_Z lower in
      jsadd (jsmul (at_index sorted lower) (Num (1 - weight)))
            (jsmul (at_index sorted upper) (Num weight)).

Record CardRect := mkCardRect {
  x : number;
  y : number;
  cardWidth : number;
  cardHeight : number
}.

(** [width] is the module variable, read by the caller. *)
Definition computeCardRect (width : number) (index : nat) : CardRect :=
  let columns := 4%Z in
  let gap := 16 in
  let cardWidth := (width - gap * (inject_Z columns + 1)) / inject_Z columns in
  let cardHeight := 120 in
  let xIndex := Z.rem (Z.of_nat index) columns in
  let yIndex := Math_floor (of_nat index / inject_Z columns) in
  let x := gap + inject_Z xIndex * (cardWidth + gap) in
  let y := gap + inject_Z yIndex * (cardHeight + gap) in
  {| x := x; y := y; cardWidth := cardWidth; cardHeight := cardHeight |}.

(** The context calls of [drawMetric], once [ctx] is known to be there. *)
Definition cardOps (r : CardRect) (metric : MetricRenderState) : list DrawOp :=
  [ Save; BeginPath; Rect (x r) (y r) (cardWidth r) (cardHeight r); Clip;
    SetFillStyle cardColor; SetGlobalAlpha 0.92;
    FillRect (x r) (y r) (cardWidth r) (cardHeight r);
    SetGlobalAlpha 1;
    SetFillStyle accentColor;
    FillRect (x r) (y r) 4 (cardHeight r);
    SetFillStyle textColor; SetFont 18 "Segoe UI" "sans-serif";
    FillText (Str (label metric)) (x r + 20) (y r + 30);
    SetFillStyle valueColor; SetFont 48 "Rajdhani" "sans-serif";
    FillText (NumStr (value metric)) (x r + 20) (y r + cardHeight r / 2 + 10);
    SetFillStyle textColor; SetFont 20 "Segoe UI" "sans-serif";
    FillText (Str (unit metric)) (x r + 20) (y r + cardHeight r - 28);
    Restore ].

Definition drawMetric (metric : MetricRenderState) (index : nat) : M void :=
  c ← gets ctx;
  match c with
  | None => mret tt
  | Some _ =>
      wd ← gets width;
      draw (cardOps (computeCardRect wd index) metric)
  end.

Definition clearMetricArea (index : nat) : M void :=
  c ← gets ctx;
  match c with
  | None => mret tt
  | Some _ =>
      wd ← gets width;
      let r := computeCardRect wd index in
      draw [ClearRect (x r - 2) (y r - 2) (cardWidth r + 4) (cardHeight r + 4)]
  end.

Definition drawBackground : M void :=
  c ← gets ctx;
  match c with
  | None => mret tt
  | Some _ =>
      wd ← gets width;
      ht ← gets height;
      draw [SetFillStyle backgroundColor; FillRect 0 0 wd ht]
  end.

Definition renderFrame (now : number) : M void :=
  c ← gets ctx;
  match c with
  | None => emit RequestAnimationFrame
  | Some _ =>
      last ← gets lastFrameTime;
      let frameDelta := now - last in
      (if decide (0 < frameDelta) then modify (set_fps (1000 / frameDelta))
       else mret tt) ;;
      modify (set_lastFrameTime now) ;;
      start ← performance_now;
      full ← gets needsFullRedraw;
      (if (full : bool) then
         drawBackground ;;
         ms ← gets metrics;
         forEach (λ descriptor index,
                    st ← gets (λ w, metricState w !! metric descriptor);
                    match st with
                    | Some state => drawMetric state index
                    | None => mret tt
                    end) ms ;;
         modify (set_needsFullRedraw false) ;;
         modify (set_dirtyMetrics ∅)
       else
         n ← gets (λ w, size (dirtyMetrics w));
         if (0 <? n)%nat then
           ms ← gets metrics;
           forEach (λ descriptor index,
                      has ← gets (λ w, bool_decide (metric descriptor ∈ dirtyMetrics w));
                      if (has : bool) then
                        clearMetricArea index ;;
                        st ← gets (λ w, metricState w !! metric descriptor);
                        match st with
                        | Some state => drawMetric state index
                        | None => mret tt
                        end
                      else mret tt) ms ;;
           modify (set_dirtyMetrics ∅)
         else mret tt) ;;
      stop ← performance_now;
      modify (set_renderMs (stop - start)) ;;
      samples ← gets latencySamples;
      let latencyP50 := quantile samples 0.5 in
      let latencyP95 := quantile samples 0.95 in
      f ← gets fps;
      r ← gets renderMs;
      emit (PostMessage (mkDebugMessage f r latencyP50 latencyP95)) ;;
      emit RequestAnimationFrame
  end.

(** [arr.splice(0, n)]: what stays in the array. *)
Definition splice0_rest {A} (n : nat) (arr : list A) : list A := drop n arr.

(** [latencySamples.push(sample)] and the trim that follows it. *)
Definition pushSample (sample : number) (samples : list number) : list number :=
  let pushed := samples ++ [sample] in
  if (360 <? length pushed)%nat
  then splice0_rest (length pushed - 360) pushed
  else pushed.

(** The callback of [data.updates.forEach] in the [metricsBatch] case. *)
Definition applyUpdate (update : MetricRenderState) : M void :=
  st ← gets (λ w, metricState w !! metric update);
  match st with
  | None =>
      modify (λ w, set_metricState (<[metric update := update]> (metricState w)) w)
  | Some state =>
      modify (λ w, set_metricState
                     (<[metric update :=
                          mkRenderState (descriptor state) (value update) (timestamp update)]>
                        (metricState w)) w)
  end ;;
  now ← performance_now;
  modify (λ w, set_latencySamples (pushSample (now - timestamp update) (latencySamples w)) w) ;;
  modify (λ w, set_dirtyMetrics (dirtyMetrics w ∪ {[metric update]}) w).

(** The [message] listener. *)
Definition onMessage (data : WorkerMessage) : M void :=
  match data with
  | Init cv ms wd ht d =>
      modify (set_canvas (Some cv)) ;;
      modify (set_metrics ms) ;;
      resize wd ht d ;;
      ms' ← gets metrics;
      forEach (λ descriptor _,
                 modify (λ w, set_metricState
                                (<[metric descriptor := mkRenderState descriptor 0 0]>
                                   (metricState w)) w) ;;
                 modify (λ w, set_dirtyMetrics (dirtyMetrics w ∪ {[metric descriptor]}) w))
              ms' ;;
      ensureContext ;;
      modify (set_needsFullRedraw true) ;;
      emit RequestAnimationFrame
  | Resize wd ht d => resize wd ht d
  | MetricsBatch updates => forEach (λ update _, applyUpdate update) updates
  end.

(** What the worker's event loop runs: a message from the dashboard or
    an animation-frame callback.  An uncaught [throw] ends the handler and
    the module state stays as it was left. *)
Inductive Event :=
| Message (data : WorkerMessage)
| AnimationFrame (now : number).

Definition dispatch (e : Event) : M void :=
  match e with
  | Message data => onMessage data
  | AnimationFrame now => renderFrame now
  end.

Definition runEvents (events : list Event) (w : Worker) : Worker :=
  foldl (λ w e, state_after (dispatch e) w) w events.

End RenderWorker.

(* ===================================================================== *)
(** ** components/HmiDashboard.vue *)
(* ===================================================================== *)

Module HmiDashboard.

Import MetricsStore.

Definition METRIC_DESCRIPTORS : list RenderWorker.MetricDescriptor :=
  [ RenderWorker.mkDescriptor "speed" "Speed" "km/h";
    RenderWorker.mkDescriptor "rpm" "Engine RPM" "rpm";
    RenderWorker.mkDescriptor "coolantTemp" "Coolant Temp" "°C";
    RenderWorker.mkDescriptor "oilTemp" "Oil Temp" "°C";
    RenderWorker.mkDescriptor "oilPressure" "Oil Pressure" "kPa";
    RenderWorker.mkDescriptor "fuelLevel" "Fuel Level" "%";
    RenderWorker.mkDescriptor "batteryVoltage" "Battery Voltage" "V";
    RenderWorker.mkDescriptor "steeringAngle" "Steering Angle" "°";
    RenderWorker.mkDescriptor "brakePressure" "Brake Pressure" "bar";
    RenderWorker.mkDescriptor "throttlePosition" "Throttle" "%";
    RenderWorker.mkDescriptor "gear" "Gear" "";
    RenderWorker.mkDescriptor "ambientTemp" "Ambient Temp" "°C";
    RenderWorker.mkDescriptor "intakeTemp" "Intake Temp" "°C";
    RenderWorker.mkDescriptor "boostPressure" "Boost Pressure" "kPa";
    RenderWorker.mkDescriptor "suspensionFL" "Suspension FL" "mm";
    RenderWorker.mkDescriptor "suspensionFR" "Suspension FR" "mm";
    RenderWorker.mkDescriptor "suspensionRL" "Suspension RL" "mm";
    RenderWorker.mkDescriptor "suspensionRR" "Suspension RR" "mm";
    RenderWorker.mkDescriptor "gForceLat" "Lateral G" "g";
    RenderWorker.mkDescriptor "gForceLong" "Longitudinal G" "g" ].

(** A [MetricPayload] is passed where the worker expects a
    [MetricRenderState]: the two interfaces have the same fields. *)
Definition asRenderState (p : MetricPayload) : RenderWorker.MetricRenderState :=
  RenderWorker.mkRenderState
    (RenderWorker.mkDescriptor (metric p) (label p) (unit p)) (value p) (timestamp p).

Record HTMLCanvasElement := mkElement {
  clientWidth : number;
  clientHeight : number;
  width : number;
  height : number;
  (** whether the transferred surface will yield a 2D context *)
  offscreen2d : bool
}.

(** [a || b] on numbers. *)
Definition or_else (a b : number) : number := if Qeq_bool a 0 then b else a.

Inductive WorkerHandle := TheWorker.

Record Dashboard := mkDashboard {
  canvasRef : option HTMLCanvasElement;
  workerRef : option WorkerHandle;
  metricsStore : Store
}.

Definition set_store (s : Store) (d : Dashboard) : Dashboard :=
  mkDashboard (canvasRef d) (workerRef d) s.

(** One run of [loop], the callback of the frame loop: the dashboard
    afterwards and the messages posted to the worker. *)
Definition loop (d : Dashboard) : Dashboard * list RenderWorker.WorkerMessage :=
  let '(updates, store') := dequeueBatch (metricsStore d) in
  let d' := set_store store' d in
  if negb (length updates =? 0)%nat && bool_decide (is_Some (workerRef d))
  then (d', [RenderWorker.MetricsBatch (asRenderState <$> updates)])
  else (d', []).

Definition setupWorker (canvas : HTMLCanvasElement) (devicePixelRatio : number)
           (d : Dashboard) : Dashboard * list RenderWorker.WorkerMessage :=
  let offscreen :=
    RenderWorker.mkCanvas (width canvas) (height canvas) (offscreen2d canvas) in
  let d' := mkDashboard (canvasRef d) (Some TheWorker) (metricsStore d) in
  let wd := or_else (clientWidth canvas) (width canvas) in
  let ht := or_else (clientHeight canvas) (height canvas) in
  (d', [RenderWorker.Init offscreen METRIC_DESCRIPTORS wd ht (or_else devicePixelRatio 1)]).

Definition handleResize (devicePixelRatio : number)
           (d : Dashboard) : Dashboard * list RenderWorker.WorkerMessage :=
  match workerRef d, canvasRef d with
  | Some _, Some canvas =>
      let wd := or_else (clientWidth canvas) (width canvas) in
      let ht := or_else (clientHeight canvas) (height canvas) in
      (d, [RenderWorker.Resize wd ht (or_else devicePixelRatio 1)])
  | _, _ => (d, [])
  end.

(** What happens on the dashboard's side: a decoded payload arrives from
    the MQTT client, the frame loop ticks, the worker is set up, the
    window is resized. *)
Inductive Event :=
| Measurement (payload : MetricPayload)
| Tick
| SetupWorker (canvas : HTMLCanvasElement) (devicePixelRatio : number)
| WindowResize (devicePixelRatio : number).

Definition handle (e : Event) (d : Dashboard) : Dashboard * list RenderWorker.WorkerMessage :=
  match e with
  | Measurement payload => (set_store (addMeasurement payload (metricsStore d)) d, [])
  | Tick => loop d
  | SetupWorker canvas devicePixelRatio => setupWorker canvas devicePixelRatio d
  | WindowResize devicePixelRatio => handleResize devicePixelRatio d
  end.

(** The messages posted to the worker over a sequence of events. *)
Fixpoint posted (events : list Event) (d : Dashboard) : list RenderWorker.WorkerMessage :=
  match events with
  | [] => []
  | e :: rest =>
      let '(d', out) := handle e d in out ++ posted rest d'
  end.

(** The updates a list of messages carries to the render engine. *)
Fixpoint delivered (msgs : list RenderWorker.WorkerMessage)
  : list RenderWorker.MetricRenderState :=
  match msgs with
  | [] => []
  | RenderWorker.MetricsBatch updates :: rest => updates ++ delivered rest
  | _ :: rest => delivered rest
  end.

(** The payloads that arrive over a sequence of events. *)
Fixpoint measured (events : list Event) : list MetricPayload :=
  match events with
  | [] => []
  | Measurement p :: rest => p :: measured rest
  | _ :: rest => measured rest
  end.

End HmiDashboard.

(* ===================================================================== *)
(** ** simulator/src: the telemetry simulator *)
(* ===================================================================== *)

Module Simulator.

#[local] Existing Instances RenderWorker.Qle_dec RenderWorker.Qlt_dec.

Record MetricDefinition := mkDefinition {
  id : string;
  label : string;
  unit : string;
  min : number;
  max : number;
  (** in Hz *)
  frequency : number;
  precision : option nat
}.

Record MetricState := mkState {
  value : number;
  target : number
}.

Definition metrics : list MetricDefinition :=
  [ mkDefinition "speed" "Speed" "km/h" 0 240 20 None;
    mkDefinition "rpm" "Engine RPM" "rpm" 600 7500 50 None;
    mkDefinition "coolantTemp" "Coolant Temp" "°C" 60 110 5 None;
    mkDefinition "oilTemp" "Oil Temp" "°C" 60 140 5 None;
    mkDefinition "oilPressure" "Oil Pressure" "kPa" 100 600 10 None;
    mkDefinition "fuelLevel" "Fuel Level" "%" 0 100 1 (Some 1%nat);
    mkDefinition "batteryVoltage" "Battery Voltage" "V" 11.5 14.5 2 (Some 2%nat);
    mkDefinition "steeringAngle" "Steering Angle" "°" (-450) 450 30 (Some 1%nat);
    mkDefinition "brakePressure" "Brake Pressure" "bar" 0 120 20 (Some 1%nat);
    mkDefinition "throttlePosition" "Throttle" "%" 0 100 30 (Some 1%nat);
    mkDefinition "gear" "Gear" "" 1 8 5 None;
    mkDefinition "ambientTemp" "Ambient Temp" "°C" (-10) 45 1 (Some 1%nat);
    mkDefinition "intakeTemp" "Intake Temp" "°C" 10 70 5 None;
    mkDefinition "boostPressure" "Boost Pressure" "kPa" 90 220 20 (Some 1%nat);
    mkDefinition "suspensionFL" "Suspension FL" "mm" (-50) 50 15 (Some 1%nat);
    mkDefinition "suspensionFR" "Suspension FR" "mm" (-50) 50 15 (Some 1%nat);
    mkDefinition "suspensionRL" "Suspension RL" "mm" (-50) 50 15 (Some 1%nat);
    mkDefinition "suspensionRR" "Suspension RR" "mm" (-50) 50 15 (Some 1%nat);
    mkDefinition "gForceLat" "Lateral G" "g" (-1.5) 1.5 30 (Some 2%nat);
    mkDefinition "gForceLong" "Longitudinal G" "g" (-1.5) 1.5 30 (Some 2%nat) ].

Definition Math_max (a b : number) : number := if decide (a <= b) then b else a.
Definition Math_min (a b : number) : number := if decide (a <= b) then a else b.
Definition Math_abs (a : number) : number := if decide (a < 0) then - a else a.

(** [Math.round]: the nearest integer, a half rounding up. *)
Definition Math_round (a : number) : Z := Qfloor (a + 0.5).

Definition clamp (value min max : number) : number :=
  Math_min (Math_max value min) max.

(** [random] is what [Math.random()] returns. *)
Definition nextTarget (def : MetricDefinition) (random : number) : number :=
  random * (max def - min def) + min def.

Definition initializeState (def : MetricDefinition) (random1 random2 : number)
  : MetricState :=
  let base := nextTarget def random1 in
  {| value := base; target := nextTarget def random2 |}.

(** [random1] is the draw for the noise; [random2] is the draw for the
    next target, taken only when the value has come close to the target.
    The result is the value returned and the state as the call leaves
    it. *)
Definition updateValue (def : MetricDefinition) (state : MetricState)
           (random1 random2 : number) : number * MetricState :=
  let bias := 0.02 in
  let delta := (target state - value state) * bias in
  let noise := (random1 - 0.5) * (max def - min def) * 0.002 in
  let next := value state + delta + noise in
  let target' :=
    if decide (Math_abs (target state - next) < (max def - min def) * 0.01)
    then nextTarget def random2
    else target state in
  let next' := if decide (id def = "gear") then inject_Z (Math_round next) else next in
  let value' := clamp next' (min def) (max def) in
  (value', {| value := value'; target := target' |}).

(** The values successive calls of [updateValue] return, one call per
    pair of draws. *)
Fixpoint updates (def : MetricDefinition) (state : MetricState)
         (draws : list (number * number)) : list number :=
  match draws with
  | [] => []
  | (random1, random2) :: rest =>
      let '(v, state') := updateValue def state random1 random2 in
      v :: updates def state' rest
  end.

End Simulator.

(* ===================================================================== *)
(** ** Describing the worker's states and effects *)
(* ===================================================================== *)

Module RenderWorkerSpec.

Import RenderWorker.

Definition markDirty (w : Worker) (id : string) : Worker :=
  set_dirtyMetrics (dirtyMetrics w ∪ {[id]}) w.

Definition contextOps (d : number) : list DrawOp :=
  [SetImageSmoothingEnabled true; SetTextBaseline "middle"; SetTransform d 0 0 d 0 0].

(** The state [resize] leaves when the surface is there and yields a
    context. *)
Definition resized (nextWidth nextHeight nextDpr : number) (cv : OffscreenCanvas)
           (w : Worker) : Worker :=
  set_needsFullRedraw true
    (set_dirtyMetrics (list_to_set (metric <$> metrics w))
       (set_ctx (Some Ctx2D)
          (set_canvas (Some (mkCanvas (nextWidth * nextDpr) (nextHeight * nextDpr)
                                      (supports2d cv)))
             (set_dpr nextDpr (set_height nextHeight (set_width nextWidth w)))))).

Definition whenContext (w : Worker) (ops : list DrawOp) : list Effect :=
  match ctx w with
  | Some _ => Draw <$> ops
  | None => []
  end.

Definition clearOps (r : CardRect) : list DrawOp :=
  [ClearRect (x r - 2) (y r - 2) (cardWidth r + 4) (cardHeight r + 4)].

Definition backgroundOps (w : Worker) : list DrawOp :=
  [SetFillStyle backgroundColor; FillRect 0 0 (width w) (height w)].

(** The card of the metric at [index], when it has a render state. *)
Definition cardEffects (w : Worker) (index : nat) (d : MetricDescriptor) : list Effect :=
  match metricState w !! metric d with
  | Some state => whenContext w (cardOps (computeCardRect (width w) index) state)
  | None => []
  end.

Definition fullRedrawEffects (w : Worker) : list Effect :=
  whenContext w (backgroundOps w) ++ concat (imap (cardEffects w) (metrics w)).

Definition partialRedrawEffects (w : Worker) : list Effect :=
  concat (imap (λ index d,
                  if bool_decide (metric d ∈ dirtyMetrics w)
                  then whenContext w (clearOps (computeCardRect (width w) index))
                         ++ cardEffects w index d
                  else [])
               (metrics w)).

Definition paintEffects (w : Worker) : list Effect :=
  if needsFullRedraw w then fullRedrawEffects w
  else if (0 <? size (dirtyMetrics w))%nat then partialRedrawEffects w
       else [].

Definition painted (w : Worker) : Worker :=
  if needsFullRedraw w then set_dirtyMetrics ∅ (set_needsFullRedraw false w)
  else if (0 <? size (dirtyMetrics w))%nat then set_dirtyMetrics ∅ w
       else w.

Definition nextFps (now : number) (w : Worker) : number :=
  if decide (0 < now - lastFrameTime w) then 1000 / (now - lastFrameTime w) else fps w.

Definition debugReport (now : number) (w : Worker) : DebugMessage :=
  mkDebugMessage (nextFps now w)
                 (clock w (S (clockReads w)) - clock w (clockReads w))
                 (quantile (latencySamples w) 0.5)
                 (quantile (latencySamples w) 0.95).

(** The render state of [update]'s metric once [update] is applied. *)
Definition merged (states : gmap string MetricRenderState) (update : MetricRenderState)
  : MetricRenderState :=
  match states !! metric update with
  | None => update
  | Some state => mkRenderState (descriptor state) (value update) (timestamp update)
  end.

Definition applied (w : Worker) (update : MetricRenderState) : Worker :=
  set_dirtyMetrics (dirtyMetrics w ∪ {[metric update]})
    (set_latencySamples
       (pushSample (clock w (clockReads w) - timestamp update) (latencySamples w))
       (set_clockReads (S (clockReads w))
          (set_metricState
             (<[metric update := merged (metricState w) update]> (metricState w)) w))).

Definition mergedAll (states : gmap string MetricRenderState)
           (updates : list MetricRenderState) : gmap string MetricRenderState :=
  foldl (λ m (u : MetricRenderState), <[metric u := merged m u]> m) states updates.

(** The latency samples a batch records: one clock reading per update. *)
Definition samplesOf (clock : nat → number) (reads : nat)
           (updates : list MetricRenderState) : list number :=
  imap (λ i (u : MetricRenderState), clock (reads + i)%nat - timestamp u) updates.

Definition pushAll (samples new : list number) : list number :=
  foldl (λ acc s, pushSample s acc) samples new.

Definition updateIds (updates : list MetricRenderState) : list string :=
  (λ u : MetricRenderState, metric u) <$> updates.

Definition seed (w : Worker) (d : MetricDescriptor) : Worker :=
  set_dirtyMetrics (dirtyMetrics w ∪ {[metric d]})
    (set_metricState (<[metric d := mkRenderState d 0 0]> (metricState w)) w).

Definition seeded (states : gmap string MetricRenderState) (ms : list MetricDescriptor)
  : gmap string MetricRenderState :=
  foldl (λ m d, <[metric d := mkRenderState d 0 0]> m) states ms.

(** The state a successful [init] leaves. *)
Definition initialised (cv : OffscreenCanvas) (ms : list MetricDescriptor)
           (wd ht d : number) (w : Worker) : Worker :=
  set_metricState (seeded (metricState w) ms)
    (resized wd ht d cv (set_metrics ms (set_canvas (Some cv) w))).

(** The state an [init] leaves whose surface yields no context. *)
Definition initFailed (cv : OffscreenCanvas) (ms : list MetricDescriptor)
           (wd ht d : number) (w : Worker) : Worker :=
  set_ctx None
    (set_canvas (Some (mkCanvas (wd * d) (ht * d) (supports2d cv)))
       (set_dpr d (set_height ht (set_width wd (set_metrics ms w))))).

(** The most recent [n] entries of a sequence. *)
Definition keepLast {A} (n : nat) (l : list A) : list A := drop (length l - n) l.

Definition catalogIds (ms : list MetricDescriptor) : gset string :=
  list_to_set (metric <$> ms).

(** The updates a sequence of events carries. *)
Definition updatesIn (events : list Event) : list MetricRenderState :=
  concat ((λ e, match e with
                | Message (MetricsBatch updates) => updates
                | _ => []
                end) <$> events).

(** An event that, if it is an [init] message, passes the catalog [ms]. *)
Definition initsWith (ms : list MetricDescriptor) (e : Event) : Prop :=
  match e with
  | Message (Init _ ms' _ _ _) => ms' = ms
  | _ => True
  end.

(** The engine after a successful [init]: the surface is held and has
    yielded its context, and every metric of the catalog has a render
    state. *)
Definition Initialized (w : Worker) : Prop :=
  (∃ cv, canvas w = Some cv ∧ supports2d cv = true)
  ∧ ctx w = Some Ctx2D
  ∧ Forall (λ d, is_Some (metricState w !! metric d)) (metrics w).

(** What a full redraw needs of the state. *)
Definition redrawPending (cat : list MetricDescriptor) (wd ht : number) (w : Worker) : Prop :=
  ctx w = Some Ctx2D ∧ width w = wd ∧ height w = ht ∧ metrics w = cat
  ∧ needsFullRedraw w = true
  ∧ Forall (λ d, is_Some (metricState w !! metric d)) cat.

Definition isDraw (e : Effect) : Prop :=
  match e with
  | Draw _ => True
  | _ => False
  end.

(** The cell of the metric at a catalog index. *)
Definition column (index : nat) : nat := index mod 4.
Definition row (index : nat) : nat := index / 4.

(** A number that holds an integer. *)
Definition integral (a : number) : Prop := ∃ k : Z, a == inject_Z k.

(** The point a fraction [t] of the way from [a] to [b]. *)
Definition interpolation (a b t : number) : number := a + t * (b - a).

(** [v] is the interpolated order statistic of [window] at [q]: over the
    window in ascending order, with index [(n - 1) * q], the value of
    that rank when the index is integral and otherwise the
    interpolation between the values ranked at the floor and at the
    ceiling of the index. *)
Definition order_statistic (window : list number) (q v : number) : Prop :=
  ∃ sorted : list number,
    sorted ≡ₚ window ∧ Sorted Qle sorted
    ∧ let index := (of_nat (length window) - 1) * q in
      ∃ lo hi : number,
        sorted !! Z.to_nat (Qfloor index) = Some lo
        ∧ sorted !! Z.to_nat (Qceiling index) = Some hi
        ∧ ((integral index ∧ v = lo)
           ∨ (¬ integral index
              ∧ v == interpolation lo hi (index - inject_Z (Qfloor index)))).

(** The effects a sequence of events has, in order. *)
Fixpoint effectsOf (events : list Event) (w : Worker) : list Effect :=
  match events with
  | [] => []
  | e :: rest => effects_of (dispatch e) w ++ effectsOf rest (state_after (dispatch e) w)
  end.

(** The debug reports among a list of effects. *)
Fixpoint posts (effects : list Effect) : list DebugMessage :=
  match effects with
  | [] => []
  | PostMessage m :: rest => m :: posts rest
  | _ :: rest => posts rest
  end.

(** The timestamps of the animation frames among a list of events. *)
Fixpoint frames (events : list Event) : list number :=
  match events with
  | [] => []
  | AnimationFrame now :: rest => now :: frames rest
  | _ :: rest => frames rest
  end.

(** Any event but an [init] message. *)
Definition notInit (e : Event) : Prop :=
  match e with
  | Message (Init _ _ _ _ _) => False
  | _ => True
  end.

(** An event that, if it is an [init] message, hands over a surface that
    yields a 2D context. *)
Definition keepsContext (e : Event) : Prop :=
  match e with
  | Message (Init cv _ _ _ _) => supports2d cv = true
  | _ => True
  end.

(** The last entry of [l] whose key is [id]. *)
Definition lastWith {A} (key : A → string) (id : string) (l : list A) : option A :=
  last (filter (λ a, key a = id) l).

(** The first entry of [l] whose key is [id]. *)
Definition firstWith {A} (key : A → string) (id : string) (l : list A) : option A :=
  head (filter (λ a, key a = id) l).

(** The descriptor the render state of [id] has after a batch that has
    an update for it: the one it had, or else the one of the first such
    update. *)
Definition descriptorAfter (states : gmap string MetricRenderState) (id : string)
           (updates : list MetricRenderState) (fallback : MetricDescriptor)
  : MetricDescriptor :=
  match states !! id with
  | Some state => descriptor state
  | None =>
      match firstWith (λ u : MetricRenderState, metric u) id updates with
      | Some u => descriptor u
      | None => fallback
      end
  end.

(** An event that applies no update and seeds no render state. *)
Definition paintsOnly (e : Event) : Prop :=
  match e with
  | Message (Resize _ _ _) | AnimationFrame _ => True
  | _ => False
  end.

(** Two rectangles that share no inner point. *)
Definition apart (a b : CardRect) : Prop :=
  x a + cardWidth a <= x b ∨ x b + cardWidth b <= x a
  ∨ y a + cardHeight a <= y b ∨ y b + cardHeight b <= y a.

(** The rectangle [clearMetricArea] clears for a card. *)
Definition clearArea (r : CardRect) : CardRect :=
  mkCardRect (x r - 2) (y r - 2) (cardWidth r + 4) (cardHeight r + 4).

End RenderWorkerSpec.

(* ===================================================================== *)
(** ** Describing runs of the metric buffer *)
(* ===================================================================== *)

Module MetricsStoreSpec.

Import MetricsStore.

(** A call on the store: one of the buffer, or [updateDebug]. *)
Inductive Op :=
| Buffer (call : Call)
| Debug (next : PartialDebugStats).

(** The results of the [dequeueBatch] calls among a sequence of calls, in
    call order, and the store afterwards. *)
Fixpoint runOps (ops : list Op) (s : Store) : list (list MetricPayload) * Store :=
  match ops with
  | [] => ([], s)
  | Buffer (Add p) :: rest => runOps rest (addMeasurement p s)
  | Buffer Drain :: rest =>
      let '(batch, s') := dequeueBatch s in
      let '(batches, s'') := runOps rest s' in
      (batch :: batches, s'')
  | Debug next :: rest => runOps rest (updateDebug next s)
  end.

(** The calls on the buffer among a sequence of calls. *)
Fixpoint bufferCalls (ops : list Op) : list Call :=
  match ops with
  | [] => []
  | Buffer call :: rest => call :: bufferCalls rest
  | Debug _ :: rest => bufferCalls rest
  end.

(** The [updateDebug] arguments among a sequence of calls. *)
Fixpoint debugUpdates (ops : list Op) : list PartialDebugStats :=
  match ops with
  | [] => []
  | Buffer _ :: rest => debugUpdates rest
  | Debug next :: rest => next :: debugUpdates rest
  end.

(** One field after a sequence of partial updates: the last value given
    for it, or the value it had. *)
Definition lastGiven (field : PartialDebugStats → option number) (before : number)
           (updates : list PartialDebugStats) : number :=
  foldl (λ current next, default current (field next)) before updates.


End MetricsStoreSpec.

(* ===================================================================== *)
(** ** Describing runs of the dashboard *)
(* ===================================================================== *)

Module HmiDashboardSpec.

Import MetricsStore HmiDashboard.

(** The dashboard after a sequence of events. *)
Fixpoint final (events : list Event) (d : Dashboard) : Dashboard :=
  match events with
  | [] => d
  | e :: rest => final rest (handle e d).1
  end.

(** A message that is not a batch without updates. *)
Definition carriesUpdates (m : RenderWorker.WorkerMessage) : Prop :=
  match m with
  | RenderWorker.MetricsBatch updates => updates ≠ []
  | _ => True
  end.

(** The worker after the messages posted to it have been handled, in the
    order they were posted. *)
Definition received (msgs : list RenderWorker.WorkerMessage) (w : RenderWorker.Worker)
  : RenderWorker.Worker :=
  RenderWorker.runEvents (RenderWorker.Message <$> msgs) w.

End HmiDashboardSpec.


(* ===================================================================== *)
(** * Properties *)
(* ===================================================================== *)

(** ** The metric buffer *)

Module MetricsStoreProofs.

Import MetricsStore.

Lemma dequeueBatch_batch (s : Store) : (dequeueBatch s).1 = queue s.
Proof.
  unfold dequeueBatch, splice0.
  destruct (length (queue s) =? 0)%nat eqn:E; cbn [fst].
  - apply Nat.eqb_eq in E. by destruct (queue s).
  - apply firstn_all.
Qed.

Lemma dequeueBatch_queue (s : Store) : queue (dequeueBatch s).2 = [].
Proof.
  unfold dequeueBatch, splice0.
  destruct (length (queue s) =? 0)%nat eqn:E; cbn [snd queue].
  - apply Nat.eqb_eq in E. by destruct (queue s).
  - apply drop_all.
Qed.


(** The results of the drains, laid end to end and followed by what is
    still pending, are what was pending before followed by the payloads
    added, in call order. *)
Lemma run_accounts (calls : list Call) :
  ∀ s, concat (run calls s).1 ++ queue (run calls s).2 = queue s ++ added calls.
Proof.
  induction calls as [|[p|] calls IH]; intros s; cbn [run added].
  - by rewrite app_nil_r.
  - rewrite IH. cbn [addMeasurement queue]. by rewrite <- app_assoc.
  - pose proof (dequeueBatch_batch s) as Hb.
    pose proof (dequeueBatch_queue s) as Hq.
    destruct (dequeueBatch s) as [batch s'].
    specialize (IH s'). destruct (run calls s') as [batches s''].
    cbn [fst snd concat] in *. rewrite <- app_assoc, IH, Hq, Hb. done.
Qed.

Lemma run_app (calls1 calls2 : list Call) :
  ∀ s, run (calls1 ++ calls2) s =
       ((run calls1 s).1 ++ (run calls2 (run calls1 s).2).1,
        (run calls2 (run calls1 s).2).2).
Proof.
  induction calls1 as [|[p|] calls1 IH]; intros s; cbn [run app fst snd].
  - by destruct (run calls2 s).
  - apply IH.
  - destruct (dequeueBatch s) as [batch s'].
    rewrite IH. destruct (run calls1 s') as [b1 s1]. cbn [fst snd].
    by destruct (run calls2 s1).
Qed.

(** C1.  Over any sequence of [addMeasurement] and [dequeueBatch] calls
    on a fresh store, the drain results laid end to end, followed by the
    payloads still pending, are exactly the payloads added, in arrival
    order: every added payload that has been drained sits at one place
    of one result, and each result lists its payloads in arrival order.
    Once the sequence ends with a drain nothing is pending and the
    results together are the payloads added.  A drain of a store whose
    queue is empty returns an empty result, and so does a drain that
    directly follows another one. *)
Theorem drain_results_partition_arrivals :
  (∀ calls : list Call,
      concat (run calls empty).1 ++ queue (run calls empty).2 = added calls)
  ∧ (∀ calls : list Call,
      concat (run (calls ++ [Drain]) empty).1 = added calls
      ∧ queue (run (calls ++ [Drain]) empty).2 = [])
  ∧ (∀ ms d, (dequeueBatch (mkStore ms [] d)).1 = [])
  ∧ (∀ s : Store, (dequeueBatch (dequeueBatch s).2).1 = []).
Proof.
  split; [|split; [|split]].
  - intros calls. by rewrite run_accounts.
  - intros calls.
    pose proof (run_accounts (calls ++ [Drain]) empty) as Hacc.
    rewrite run_app in *. cbn [run fst snd] in *.
    pose proof (dequeueBatch_queue (run calls empty).2) as Hq.
    destruct (dequeueBatch (run calls empty).2) as [batch s'].
    cbn [fst snd] in *. rewrite Hq, app_nil_r in Hacc.
    split; [|done]. rewrite Hacc. cbn [empty queue app].
    clear. induction calls as [|[p|] calls IH]; cbn [added app]; [done| |done].
    by rewrite IH.
  - done.
  - intros s. by rewrite dequeueBatch_batch, dequeueBatch_queue.
Qed.

(** Two payloads, a drain, one more payload, two drains. *)
Example drain_example (a b c : MetricPayload) :
  (run [Add a; Add b; Drain; Add c; Drain; Drain] empty).1 = [[a; b]; [c]; []].
Proof. reflexivity. Qed.

End MetricsStoreProofs.

(** ** The render worker *)

Module RenderWorkerProofs.

Import RenderWorker RenderWorkerSpec.

(** *** Running computations *)

Lemma bind_run {A B} (m : M A) (f : A → M B) (w : Worker) :
  (m ≫= f) w =
    match m w with
    | (Normal a, w', out) => let '(r, w'', out') := f a w' in (r, w'', out ++ out')
    | (Thrown e, w', out) => (Thrown e, w', out)
    end.
Proof. reflexivity. Qed.

Lemma ret_bind {A B} (a : A) (k : A → M B) (w : Worker) :
  (mret a ≫= k) w = k a w.
Proof.
  unfold mbind, M_bind, mret, M_ret. by destruct (k a w) as [[r w'] out].
Qed.

Lemma modify_bind {B} (f : Worker → Worker) (k : void → M B) (w : Worker) :
  (modify f ≫= k) w = k tt (f w).
Proof.
  unfold mbind, M_bind, modify. by destruct (k tt (f w)) as [[r w'] out].
Qed.

Lemma gets_bind {A B} (f : Worker → A) (k : A → M B) (w : Worker) :
  (gets f ≫= k) w = k (f w) w.
Proof.
  unfold mbind, M_bind, gets. by destruct (k (f w) w) as [[r w'] out].
Qed.

Lemma emit_bind {B} (e : Effect) (k : void → M B) (w : Worker) :
  (emit e ≫= k) w = let '(r, w', out) := k tt w in (r, w', e :: out).
Proof. reflexivity. Qed.

Lemma performance_now_bind {B} (k : number → M B) (w : Worker) :
  (performance_now ≫= k) w =
    k (clock w (clockReads w)) (set_clockReads (S (clockReads w)) w).
Proof.
  unfold mbind, M_bind, performance_now.
  by destruct (k _ _) as [[r w'] out].
Qed.

Ltac mstep :=
  repeat first
    [ rewrite ret_bind | rewrite modify_bind | rewrite gets_bind
    | rewrite performance_now_bind | rewrite emit_bind ].

Ltac mrun := repeat (progress (mstep; cbn)).

Lemma draw_run (ops : list DrawOp) (w : Worker) :
  draw ops w = (Normal tt, w, Draw <$> ops).
Proof.
  induction ops as [|op ops IH]; [done|].
  cbn [draw]. rewrite bind_run. cbn. by rewrite IH.
Qed.

(** A loop whose body only has effects on the outside. *)
Lemma forEachFrom_pure {A} (f : A → nat → M void) (g : A → nat → Worker → list Effect) :
  (∀ a i w, f a i w = (Normal tt, w, g a i w)) →
  ∀ arr i w,
    forEachFrom f i arr w = (Normal tt, w, concat (imap (λ k a, g a (i + k)%nat w) arr)).
Proof.
  intros Hf arr. induction arr as [|a arr IH]; intros i w; [done|].
  cbn [forEachFrom]. rewrite bind_run, Hf, IH. cbn [imap concat].
  rewrite Nat.add_0_r. do 3 f_equal. apply imap_ext. intros k b _. cbn.
  f_equal. lia.
Qed.

(** A loop whose body only changes the module state. *)
Lemma forEachFrom_state {A} (f : A → nat → M void) (step : Worker → A → Worker) :
  (∀ a i w, f a i w = (Normal tt, step w a, [])) →
  ∀ arr i w, forEachFrom f i arr w = (Normal tt, foldl step w arr, []).
Proof.
  intros Hf arr. induction arr as [|a arr IH]; intros i w; [done|].
  cbn [forEachFrom foldl]. by rewrite bind_run, Hf, IH.
Qed.

#[local] Arguments ensureContext : simpl never.
#[local] Arguments resize : simpl never.
#[local] Arguments drawMetric : simpl never.
#[local] Arguments clearMetricArea : simpl never.
#[local] Arguments drawBackground : simpl never.
#[local] Arguments applyUpdate : simpl never.
#[local] Arguments quantile : simpl never.
#[local] Arguments forEachFrom : simpl never.
#[local] Arguments draw : simpl never.
#[local] Arguments computeCardRect : simpl never.
#[local] Arguments cardOps : simpl never.
#[local] Arguments pushSample : simpl never.

Lemma foldl_markDirty (ids : list string) :
  ∀ w, foldl markDirty w ids = set_dirtyMetrics (dirtyMetrics w ∪ list_to_set ids) w.
Proof.
  induction ids as [|id ids IH]; intros w; cbn [foldl list_to_set].
  - destruct w. cbn. by rewrite (right_id_L ∅ (∪)).
  - rewrite IH. destruct w. unfold markDirty. cbn. by rewrite (assoc_L (∪)).
Qed.

Lemma ensureContext_run (w : Worker) :
  ensureContext w =
    match canvas w with
    | None => (Normal tt, w, [])
    | Some cv =>
        if supports2d cv
        then (Normal tt, set_ctx (Some Ctx2D) w, Draw <$> contextOps (dpr w))
        else (Thrown "Unable to acquire 2D context", set_ctx None w, [])
    end.
Proof.
  destruct w as [[cv|] ? ? ? ? ? ? ? ? ? ? ? ? ? ?]; [|done].
  unfold ensureContext, getContext2d. mstep. cbn.
  destruct (supports2d cv); [|done]. mrun. by rewrite draw_run.
Qed.

Lemma resize_run (nextWidth nextHeight nextDpr : number) (w : Worker) :
  resize nextWidth nextHeight nextDpr w =
    match canvas w with
    | None =>
        (Normal tt, set_dpr nextDpr (set_height nextHeight (set_width nextWidth w)), [])
    | Some cv =>
        if supports2d cv
        then (Normal tt, resized nextWidth nextHeight nextDpr cv w,
              Draw <$> contextOps nextDpr)
        else (Thrown "Unable to acquire 2D context",
              set_ctx None
                (set_canvas (Some (mkCanvas (nextWidth * nextDpr) (nextHeight * nextDpr)
                                            (supports2d cv)))
                   (set_dpr nextDpr (set_height nextHeight (set_width nextWidth w)))),
              [])
    end.
Proof.
  destruct w as [[cv|] ? ? ? ? ms ? ? ? ? ? ? ? ? ?]; [|done].
  unfold resize. mrun. rewrite bind_run, ensureContext_run. cbn.
  destruct (supports2d cv) eqn:E; [|done]. mrun. unfold forEach.
  rewrite bind_run, (forEachFrom_state _ (λ w m, markDirty w (metric m))) by done.
  rewrite <- (foldl_fmap markDirty), foldl_markDirty. cbn.
  unfold resized. cbn. by rewrite (left_id_L ∅ (∪)).
Qed.

(** *** Painting *)

Lemma drawMetric_run (state : MetricRenderState) (index : nat) (w : Worker) :
  drawMetric state index w =
    (Normal tt, w, whenContext w (cardOps (computeCardRect (width w) index) state)).
Proof.
  unfold drawMetric, whenContext. mrun.
  destruct (ctx w); [|done]. mrun. by rewrite draw_run.
Qed.

Lemma clearMetricArea_run (index : nat) (w : Worker) :
  clearMetricArea index w =
    (Normal tt, w, whenContext w (clearOps (computeCardRect (width w) index))).
Proof.
  unfold clearMetricArea, whenContext. mrun.
  destruct (ctx w); [|done]. mrun. by rewrite draw_run.
Qed.

Lemma drawBackground_run (w : Worker) :
  drawBackground w = (Normal tt, w, whenContext w (backgroundOps w)).
Proof.
  unfold drawBackground, whenContext. mrun.
  destruct (ctx w); [|done]. mrun. by rewrite draw_run.
Qed.

Lemma renderFrame_run (now : number) (w : Worker) :
  renderFrame now w =
    match ctx w with
    | None => (Normal tt, w, [RequestAnimationFrame])
    | Some _ =>
        (Normal tt,
         set_renderMs (clock w (S (clockReads w)) - clock w (clockReads w))
           (set_clockReads (S (S (clockReads w)))
              (painted (set_lastFrameTime now (set_fps (nextFps now w) w)))),
         paintEffects w ++ [PostMessage (debugReport now w); RequestAnimationFrame])
    end.
Proof.
  destruct w as [cv [c|] wd ht d ms mst dirty full last f r samples clk reads]; [|done].
  unfold renderFrame, debugReport, nextFps, paintEffects, painted. mrun.
  rewrite bind_run.
  assert ((if decide (0 < now - last) then modify (set_fps (1000 / (now - last))) else mret tt)
            (mkWorker cv (Some c) wd ht d ms mst dirty full last f r samples clk reads)
          = (Normal tt,
             mkWorker cv (Some c) wd ht d ms mst dirty full last
                      (if decide (0 < now - last) then 1000 / (now - last) else f)
                      r samples clk reads, [])) as ->
    by (by destruct (decide _)).
  mrun. rewrite bind_run. destruct full.
  - rewrite bind_run, drawBackground_run. mrun.
    rewrite bind_run. unfold forEach.
    rewrite (forEachFrom_pure _ (λ d i w, cardEffects w i d)).
    2:{ intros a i w. mrun. unfold cardEffects.
        destruct (metricState w !! metric a); [apply drawMetric_run|done]. }
    mrun. by rewrite app_nil_r.
  - mrun. destruct (size dirty) as [|n]; cbn; [by mrun|].
    + mrun. rewrite bind_run. unfold forEach.
      rewrite (forEachFrom_pure _
                 (λ d i w, if bool_decide (metric d ∈ dirtyMetrics w)
                           then whenContext w (clearOps (computeCardRect (width w) i))
                                  ++ cardEffects w i d
                           else [])).
      2:{ intros a i w. mrun. destruct (bool_decide _); [|done].
          rewrite bind_run, clearMetricArea_run. mrun. unfold cardEffects.
          destruct (metricState w !! metric a); [|done].
          by rewrite drawMetric_run. }
      mrun. by rewrite app_nil_r.
Qed.

(** *** Applying a batch *)

Lemma applyUpdate_run (update : MetricRenderState) (w : Worker) :
  applyUpdate update w = (Normal tt, applied w update, []).
Proof.
  destruct w. unfold applyUpdate, applied, merged. mrun. rewrite bind_run. cbn.
  destruct (metricState0 !! metric update); by mrun.
Qed.

Lemma metricsBatch_run (updates : list MetricRenderState) (w : Worker) :
  onMessage (MetricsBatch updates) w = (Normal tt, foldl applied w updates, []).
Proof.
  cbn [onMessage]. unfold forEach.
  apply forEachFrom_state. intros. apply applyUpdate_run.
Qed.

Lemma foldl_applied (updates : list MetricRenderState) :
  ∀ w, foldl applied w updates =
         set_dirtyMetrics (dirtyMetrics w ∪ list_to_set (updateIds updates))
           (set_latencySamples
              (pushAll (latencySamples w) (samplesOf (clock w) (clockReads w) updates))
              (set_clockReads (clockReads w + length updates)
                 (set_metricState (mergedAll (metricState w) updates) w))).
Proof.
  induction updates as [|u updates IH]; intros w.
  - destruct w. cbn. by rewrite (right_id_L ∅ (∪)), Nat.add_0_r.
  - cbn [foldl]. rewrite IH. destruct w. unfold applied, samplesOf, pushAll, mergedAll.
    cbn. f_equal.
    + by rewrite (assoc_L (∪)).
    + rewrite Nat.add_0_r. f_equal. apply imap_ext. intros i x _. cbn.
      by rewrite Nat.add_succ_r.
    + lia.
Qed.

(** *** Initialisation *)

Lemma foldl_seed (ms : list MetricDescriptor) :
  ∀ w, foldl seed w ms =
         set_dirtyMetrics (dirtyMetrics w ∪ list_to_set (metric <$> ms))
           (set_metricState (seeded (metricState w) ms) w).
Proof.
  induction ms as [|d ms IH]; intros w.
  - destruct w. cbn. by rewrite (right_id_L ∅ (∪)).
  - cbn [foldl]. rewrite IH. destruct w. unfold seed, seeded. cbn.
    by rewrite (assoc_L (∪)).
Qed.

Lemma init_run (cv : OffscreenCanvas) (ms : list MetricDescriptor)
      (wd ht d : number) (w : Worker) :
  onMessage (Init cv ms wd ht d) w =
    if supports2d cv
    then (Normal tt, initialised cv ms wd ht d w,
          (Draw <$> contextOps d) ++ (Draw <$> contextOps d) ++ [RequestAnimationFrame])
    else (Thrown "Unable to acquire 2D context", initFailed cv ms wd ht d w, []).
Proof.
  destruct w. cbn [onMessage]. mrun. rewrite bind_run, resize_run. cbn.
  destruct (supports2d cv) eqn:E; [|done]. mrun.
  rewrite bind_run. unfold forEach. rewrite (forEachFrom_state _ seed).
  2:{ intros a i w. destruct w. by mrun. }
  rewrite foldl_seed. mrun. rewrite bind_run, ensureContext_run. mrun.
  by rewrite (idemp_L (∪)).
Qed.

(** *** The latency window *)

Lemma keepLast_length {A} (n : nat) (l : list A) : (length (keepLast n l) ≤ n)%nat.
Proof. unfold keepLast. rewrite length_drop. lia. Qed.

Lemma keepLast_short {A} (n : nat) (l : list A) : (length l ≤ n)%nat → keepLast n l = l.
Proof. intros H. unfold keepLast. by replace (length l - n)%nat with 0%nat by lia. Qed.

Lemma keepLast_app {A} (n : nat) (l1 l2 : list A) :
  keepLast n (keepLast n l1 ++ l2) = keepLast n (l1 ++ l2).
Proof.
  destruct (decide (length l1 ≤ n)%nat) as [Hle|Hgt].
  - by rewrite (keepLast_short n l1).
  - unfold keepLast. rewrite !length_app, length_drop.
    replace (length l1 - (length l1 - n) + length l2 - n)%nat with (length l2) by lia.
    replace (length l1 + length l2 - n)%nat
      with ((length l1 - n) + length l2)%nat by lia.
    rewrite <- (drop_drop (l1 ++ l2)), (drop_app_le l1 l2) by lia.
    done.
Qed.

Lemma pushSample_keepLast (sample : number) (samples : list number) :
  pushSample sample samples = keepLast 360 (samples ++ [sample]).
Proof.
  unfold pushSample, splice0_rest.
  destruct (360 <? length (samples ++ [sample]))%nat eqn:E; [done|].
  apply Nat.ltb_ge in E. by rewrite keepLast_short.
Qed.

Lemma pushAll_keepLast (new : list number) :
  ∀ samples, (length samples ≤ 360)%nat →
             pushAll samples new = keepLast 360 (samples ++ new).
Proof.
  induction new as [|s new IH]; intros samples Hlen; cbn [pushAll foldl].
  - by rewrite app_nil_r, keepLast_short.
  - fold (pushAll (pushSample s samples) new).
    rewrite IH, pushSample_keepLast by (rewrite pushSample_keepLast; apply keepLast_length).
    by rewrite keepLast_app, <- app_assoc.
Qed.

Lemma pushAll_length (new samples : list number) :
  (length samples ≤ 360)%nat → (length (pushAll samples new) ≤ 360)%nat.
Proof. intros H. rewrite pushAll_keepLast by done. apply keepLast_length. Qed.

(** *** What each event does to the parts of the state *)

Lemma dispatch_latencySamples (e : Event) (w : Worker) :
  latencySamples (state_after (dispatch e) w) =
    match e with
    | Message (MetricsBatch updates) =>
        pushAll (latencySamples w) (samplesOf (clock w) (clockReads w) updates)
    | _ => latencySamples w
    end.
Proof.
  unfold state_after.
  destruct e as [[cv ms wd ht d|wd ht d|updates]|now]; cbn [dispatch].
  - rewrite init_run. destruct w, (supports2d cv); reflexivity.
  - cbn [onMessage]. rewrite resize_run.
    destruct w as [[cv|] ? ? ? ? ? ? ? ? ? ? ? ? ? ?]; [|done].
    cbn. by destruct (supports2d cv).
  - rewrite metricsBatch_run, foldl_applied. by destruct w.
  - rewrite renderFrame_run.
    destruct w as [? [c|] ? ? ? ? ? dirty [|] ? ? ? ? ? ?]; try done.
    cbn. unfold painted. cbn. by destruct (size dirty).
Qed.

Lemma runEvents_window (events : list Event) :
  ∀ w, (length (latencySamples w) ≤ 360)%nat →
       (length (latencySamples (runEvents events w)) ≤ 360)%nat.
Proof.
  induction events as [|e events IH]; intros w Hlen; [done|].
  cbn [runEvents foldl]. apply IH. rewrite dispatch_latencySamples.
  destruct e as [[| |updates]|]; try done. by apply pushAll_length.
Qed.

(** C3.  The latency window holds at most 360 samples after every
    applied update, hence in every state the worker reaches; a batch
    leaves in the window the most recent 360 of the samples held before
    followed by the samples the batch records, so the oldest go first;
    and a batch of 360 + k updates on a fresh worker leaves its last 360
    samples. *)
Theorem latency_window_capacity_fifo :
  (∀ (w : Worker) (update : MetricRenderState),
      (length (latencySamples (state_after (applyUpdate update) w)) ≤ 360)%nat)
  ∧ (∀ (clk : nat → number) (events : list Event),
      (length (latencySamples (runEvents events (initial clk))) ≤ 360)%nat)
  ∧ (∀ (clk : nat → number) (events : list Event) (updates : list MetricRenderState),
      let w := runEvents events (initial clk) in
      latencySamples (state_after (onMessage (MetricsBatch updates)) w) =
        keepLast 360 (latencySamples w ++ samplesOf (clock w) (clockReads w) updates))
  ∧ (∀ (clk : nat → number) (updates : list MetricRenderState) (k : nat),
      length updates = (360 + k)%nat →
      latencySamples (state_after (onMessage (MetricsBatch updates)) (initial clk)) =
        drop k (samplesOf clk 1 updates)).
Proof.
  split; [|split; [|split]].
  - intros w update. unfold state_after. rewrite applyUpdate_run. destruct w. cbn.
    rewrite pushSample_keepLast. apply keepLast_length.
  - intros clk events. apply runEvents_window. cbn. lia.
  - intros clk events updates w.
    change (onMessage (MetricsBatch updates)) with (dispatch (Message (MetricsBatch updates))).
    rewrite dispatch_latencySamples. apply pushAll_keepLast.
    apply runEvents_window. cbn. lia.
  - intros clk updates k Hlen.
    change (onMessage (MetricsBatch updates)) with (dispatch (Message (MetricsBatch updates))).
    rewrite dispatch_latencySamples. cbn [initial latencySamples clock clockReads].
    rewrite pushAll_keepLast by (cbn; lia). cbn [app]. unfold keepLast, samplesOf.
    rewrite length_imap, Hlen. f_equal. lia.
Qed.

Lemma latency_window_capacity_fifo_witness :
  let u := mkRenderState (mkDescriptor "rpm" "Engine RPM" "rpm") 3000 0 in
  let clk := λ n : nat, inject_Z (Z.of_nat n) in
  latencySamples
    (state_after (onMessage (MetricsBatch (replicate 362 u))) (initial clk)) =
    drop 2 (samplesOf clk 1 (replicate 362 u)).
Proof.
  intros u clk.
  exact (proj2 (proj2 (proj2 latency_window_capacity_fifo)) clk (replicate 362 u) 2%nat
               eq_refl).
Defined.

(** *** One update *)

(** C5.  Applying an update never throws.  When the metric has no render
    state the update itself becomes its state, whether or not the id is
    in the catalog; otherwise the state keeps its descriptor and takes
    the update's value and timestamp.  The states of the other metrics
    stay.  The reading of the clock minus the update's timestamp is the
    newest latency sample, and the metric id joins the dirty set.  A
    batch applies its updates in order.  For the update
    [{metric: "speed", value: 87, timestamp: T}] applied when the clock
    reads [T + 42], the newest sample is 42 and "speed" is dirty. *)
Theorem applyBatch_applies_each_update :
  (∀ (w : Worker) (update : MetricRenderState),
      let w' := state_after (applyUpdate update) w in
      completion_of (applyUpdate update) w = Normal tt
      ∧ metricState w' !! metric update =
          Some (match metricState w !! metric update with
                | None => update
                | Some state =>
                    mkRenderState (descriptor state) (value update) (timestamp update)
                end)
      ∧ (∀ id : string, id ≠ metric update → metricState w' !! id = metricState w !! id)
      ∧ last (latencySamples w') = Some (clock w (clockReads w) - timestamp update)
      ∧ dirtyMetrics w' = dirtyMetrics w ∪ {[metric update]})
  ∧ (∀ (w : Worker) (updates : list MetricRenderState),
      onMessage (MetricsBatch updates) w =
        (Normal tt, foldl (λ w u, state_after (applyUpdate u) w) w updates, []))
  ∧ (∀ (w : Worker) (T : number) (lbl unt : string),
      clock w (clockReads w) == T + 42 →
      let w' := state_after (applyUpdate (mkRenderState (mkDescriptor "speed" lbl unt) 87 T)) w in
      ∃ sample : number,
        last (latencySamples w') = Some sample ∧ sample == 42
        ∧ "speed" ∈ dirtyMetrics w').
Proof.
  assert (∀ s l, last (pushSample s l) = Some s) as Hlast.
  { intros s l. rewrite pushSample_keepLast. unfold keepLast.
    rewrite length_app. cbn [length].
    destruct (decide (length l + 1 - 360 ≤ length l)%nat) as [H|H]; [|lia].
    rewrite drop_app_le by done. apply last_snoc. }
  split; [|split].
  - intros w update w'. subst w'. unfold state_after, completion_of.
    rewrite applyUpdate_run. destruct w. cbn. unfold merged.
    repeat split.
    + by rewrite lookup_insert_eq.
    + intros id Hid. by rewrite lookup_insert_ne.
    + apply Hlast.
  - intros w updates. rewrite metricsBatch_run. do 2 f_equal.
    revert w. induction updates as [|u updates IH]; intros w; [done|].
    cbn [foldl]. rewrite IH. unfold state_after. by rewrite applyUpdate_run.
  - intros w T lbl unt Hclock w'. subst w'. unfold state_after.
    rewrite applyUpdate_run. destruct w. cbn in *.
    eexists. split; [apply Hlast|]. split.
    + rewrite Hclock. ring.
    + set_solver.
Qed.

Lemma applyBatch_applies_each_update_witness :
  let w := initial (λ _, 1042) in
  let w' := state_after
              (applyUpdate (mkRenderState (mkDescriptor "speed" "Speed" "km/h") 87 1000)) w in
  ∃ sample : number,
    last (latencySamples w') = Some sample ∧ sample == 42 ∧ "speed" ∈ dirtyMetrics w'.
Proof.
  intros w.
  apply (proj2 (proj2 applyBatch_applies_each_update) w 1000 "Speed" "km/h").
  reflexivity.
Defined.

(** C7.  Applying the same update a second time changes no render
    state: the map of render states after two applications is the map
    after one, whatever the clock reads in between, and so is the dirty
    set. *)
Theorem applyBatch_idempotent (w : Worker) (update : MetricRenderState) :
  let once := state_after (applyUpdate update) w in
  let twice := state_after (applyUpdate update) once in
  metricState twice = metricState once
  ∧ metricState twice !! metric update = metricState once !! metric update
  ∧ dirtyMetrics twice = dirtyMetrics once.
Proof.
  intros once twice. subst once twice. unfold state_after.
  rewrite !applyUpdate_run. destruct w. cbn. unfold merged.
  rewrite lookup_insert_eq. cbn.
  assert (∀ (m : gmap string MetricRenderState) k (st st' : MetricRenderState),
             st' = st → <[k := st']> (<[k := st]> m) = <[k := st]> m) as Hins.
  { intros m k st st' ->. apply insert_insert_eq. }
  rewrite Hins by (by destruct (metricState0 !! metric update) as [[]|]; destruct update).
  split; [done|]. split; [by rewrite lookup_insert_eq|].
  by rewrite <- (assoc_L (∪)), (idemp_L (∪)).
Qed.

(** *** The dirty set *)

Lemma dispatch_dirtyMetrics (ms : list MetricDescriptor) (e : Event) (w : Worker) :
  initsWith ms e →
  metrics w = [] ∨ metrics w = ms →
  (metrics (state_after (dispatch e) w) = [] ∨ metrics (state_after (dispatch e) w) = ms)
  ∧ dirtyMetrics (state_after (dispatch e) w)
      ⊆ catalogIds ms ∪ dirtyMetrics w ∪ list_to_set (updateIds (updatesIn [e])).
Proof.
  unfold state_after, updatesIn.
  destruct e as [[cv ms' wd ht d|wd ht d|updates]|now]; cbn [dispatch initsWith];
    intros He Hms.
  - subst ms'. rewrite init_run. destruct w.
    destruct (supports2d cv); cbn; (split; [by right|]).
    + apply union_subseteq_l', union_subseteq_l.
    + apply union_subseteq_l', union_subseteq_r.
  - cbn [onMessage]. rewrite resize_run.
    destruct w as [[cv|] ? ? ? ? cat ? dirty ? ? ? ? ? ? ?]; cbn in *.
    + destruct (supports2d cv); cbn; (split; [done|]).
      * apply union_subseteq_l', union_subseteq_l'.
        destruct Hms as [->| ->]; [apply empty_subseteq|done].
      * apply union_subseteq_l', union_subseteq_r.
    + split; [done|]. apply union_subseteq_l', union_subseteq_r.
  - rewrite metricsBatch_run, foldl_applied. destruct w. cbn in *. split; [done|].
    rewrite app_nil_r. apply union_mono_r, union_subseteq_r.
  - rewrite renderFrame_run.
    destruct w as [? [c|] ? ? ? ? ? dirty full ? ? ? ? ? ?]; cbn in *.
    + split.
      * unfold painted. cbn. by destruct full, (size dirty).
      * apply union_subseteq_l', union_subseteq_r'.
        unfold painted. cbn. destruct full; cbn; [apply empty_subseteq|].
        destruct (size dirty); cbn; [done|apply empty_subseteq].
    + split; [done|]. apply union_subseteq_l', union_subseteq_r.
Qed.

Lemma updatesIn_cons (e : Event) (events : list Event) :
  updatesIn (e :: events) = updatesIn [e] ++ updatesIn events.
Proof. unfold updatesIn. cbn. by rewrite app_nil_r. Qed.

Lemma runEvents_dirtyMetrics (ms : list MetricDescriptor) (events : list Event) :
  Forall (initsWith ms) events →
  ∀ w, metrics w = [] ∨ metrics w = ms →
       (metrics (runEvents events w) = [] ∨ metrics (runEvents events w) = ms)
       ∧ dirtyMetrics (runEvents events w)
           ⊆ catalogIds ms ∪ dirtyMetrics w ∪ list_to_set (updateIds (updatesIn events)).
Proof.
  induction 1 as [|e events He _ IH]; intros w Hw.
  - split; [done|]. cbn. apply union_subseteq_l', union_subseteq_r.
  - cbn [runEvents foldl].
    destruct (dispatch_dirtyMetrics ms e w He Hw) as [Hms1 Hsub1].
    destruct (IH (state_after (dispatch e) w) Hms1) as [Hms Hsub].
    fold (runEvents events (state_after (dispatch e) w)).
    split; [done|].
    rewrite updatesIn_cons. unfold updateIds in *.
    rewrite fmap_app, list_to_set_app_L.
    etrans; [exact Hsub|]. clear Hsub IH Hms Hms1.
    intros id. rewrite !elem_of_union. intros [[Hid|Hid]|Hid]; [tauto| |tauto].
    apply Hsub1 in Hid. revert Hid. rewrite !elem_of_union. tauto.
Qed.

(** C4, amended.  Over any sequence of init, resize, batch and frame
    events on a fresh worker whose [init] messages all pass the catalog
    [ms], whether or not a surface yields its context, every id in the
    dirty set is an id of the catalog or the metric id of an update
    applied before; so the dirty set is within the catalog ids whenever
    all the updates applied carry ids of the catalog.  The catalog the
    worker holds is [ms] once an [init] has arrived and empty before. *)
Theorem dirty_within_catalog_and_updates
        (clk : nat → number) (ms : list MetricDescriptor) (events : list Event) :
  Forall (initsWith ms) events →
  let w := runEvents events (initial clk) in
  dirtyMetrics w ⊆ catalogIds ms ∪ list_to_set (updateIds (updatesIn events))
  ∧ (list_to_set (updateIds (updatesIn events)) ⊆ catalogIds ms →
     dirtyMetrics w ⊆ catalogIds ms)
  ∧ (metrics w = [] ∨ metrics w = ms).
Proof.
  intros Hevents w. subst w.
  destruct (runEvents_dirtyMetrics ms events Hevents (initial clk)) as [Hms Hsub];
    [by left|].
  assert (dirtyMetrics (runEvents events (initial clk))
            ⊆ catalogIds ms ∪ list_to_set (updateIds (updatesIn events))) as Hmain.
  { etrans; [exact Hsub|]. cbn [initial dirtyMetrics].
    by rewrite (right_id_L ∅ (∪)). }
  split; [done|]. split; [|done].
  intros Hin. etrans; [exact Hmain|]. by apply union_least.
Qed.

Lemma dirty_within_catalog_and_updates_witness :
  let ms := [mkDescriptor "speed" "Speed" "km/h"; mkDescriptor "rpm" "Engine RPM" "rpm"] in
  let events := [Message (Init (mkCanvas 1280 720 true) ms 1280 720 1);
                 Message (MetricsBatch [mkRenderState (mkDescriptor "rpm" "Engine RPM" "rpm") 3000 7]);
                 AnimationFrame 16;
                 Message (Resize 800 600 2);
                 Message (MetricsBatch [mkRenderState (mkDescriptor "speed" "Speed" "km/h") 87 20])] in
  let w := runEvents events (initial (λ _, 10)) in
  dirtyMetrics w ⊆ catalogIds ms ∪ list_to_set (updateIds (updatesIn events))
  ∧ (list_to_set (updateIds (updatesIn events)) ⊆ catalogIds ms →
     dirtyMetrics w ⊆ catalogIds ms)
  ∧ (metrics w = [] ∨ metrics w = ms).
Proof.
  intros ms events.
  apply (dirty_within_catalog_and_updates (λ _, 10) ms events).
  repeat constructor.
Defined.

(** C4 as stated fails: an update whose metric id is not in the catalog
    is applied like any other and its id is marked dirty. *)
Lemma dirty_set_escapes_catalog :
  let ms := [mkDescriptor "speed" "Speed" "km/h"] in
  let w := runEvents
             [Message (Init (mkCanvas 1280 720 true) ms 1280 720 1);
              Message (MetricsBatch [mkRenderState (mkDescriptor "foo" "Foo" "") 1 0])]
             (initial (λ _, 0)) in
  metrics w = ms ∧ ¬ dirtyMetrics w ⊆ catalogIds (metrics w).
Proof.
  intros ms w. split; [reflexivity|].
  intros Hsub.
  assert (bool_decide ("foo" ∈ dirtyMetrics w) = true) as Hin by (by vm_compute).
  assert (bool_decide ("foo" ∈ catalogIds (metrics w)) = false) as Hout by (by vm_compute).
  apply bool_decide_eq_true_1 in Hin. apply bool_decide_eq_false_1 in Hout.
  by apply Hout, Hsub.
Qed.

(** *** Full redraw after a resize *)

Lemma seeded_is_Some (ms : list MetricDescriptor) (id : string) :
  ∀ states : gmap string MetricRenderState,
    is_Some (states !! id) ∨ id ∈ metric <$> ms → is_Some (seeded states ms !! id).
Proof.
  induction ms as [|d ms IH]; intros states H; cbn [seeded foldl].
  - destruct H as [H|H]; [done|]. by apply elem_of_nil in H.
  - apply IH. rewrite lookup_insert_is_Some.
    destruct (decide (metric d = id)) as [->|Hne]; [by left; left|].
    destruct H as [H|H]; [by left; right|].
    cbn in H. apply elem_of_cons in H as [->|H]; [done|by right].
Qed.

Lemma init_Initialized (cv : OffscreenCanvas) (ms : list MetricDescriptor)
      (wd ht d : number) (w : Worker) :
  supports2d cv = true →
  Initialized (state_after (onMessage (Init cv ms wd ht d)) w).
Proof.
  intros Hcv. unfold state_after. rewrite init_run, Hcv. destruct w. cbn.
  unfold Initialized. cbn. split; [eauto|]. split; [done|].
  apply Forall_forall. intros m Hm. apply seeded_is_Some. right.
  by apply list_elem_of_fmap_2.
Qed.

Lemma mergedAll_is_Some (updates : list MetricRenderState) (id : string) :
  ∀ states : gmap string MetricRenderState,
    is_Some (states !! id) → is_Some (mergedAll states updates !! id).
Proof.
  induction updates as [|u updates IH]; intros states H; [done|].
  cbn [mergedAll foldl]. apply IH. rewrite lookup_insert_is_Some.
  destruct (decide (metric u = id)); [by left|by right].
Qed.

Lemma batches_keep_redrawPending (cat : list MetricDescriptor) (wd ht : number)
      (batches : list (list MetricRenderState)) :
  ∀ w, redrawPending cat wd ht w →
       redrawPending cat wd ht
         (runEvents ((λ updates, Message (MetricsBatch updates)) <$> batches) w).
Proof.
  induction batches as [|updates batches IH]; intros w Hw; [done|].
  cbn [fmap list_fmap runEvents foldl]. apply IH. clear IH.
  unfold state_after. cbn [dispatch]. rewrite metricsBatch_run, foldl_applied.
  destruct w. unfold redrawPending in *. cbn in *.
  destruct Hw as (?&?&?&?&?&Hstates). repeat (split; [done|]).
  eapply Forall_impl; [exact Hstates|]. intros m. apply mergedAll_is_Some.
Qed.

Lemma cards_of_states (w : Worker) (cat : list MetricDescriptor) :
  ctx w = Some Ctx2D →
  Forall (λ d, is_Some (metricState w !! metric d)) cat →
  ∃ states : list MetricRenderState,
    Forall2 (λ (d : MetricDescriptor) st, metricState w !! metric d = Some st) cat states
    ∧ ∀ from,
        imap (λ i d, cardEffects w (from + i) d) cat =
          imap (λ i st, Draw <$> cardOps (computeCardRect (width w) (from + i)) st) states.
Proof.
  intros Hctx. induction 1 as [|d cat [st Hst] _ (states & Hall & Heq)].
  - exists []. split; [constructor|done].
  - exists (st :: states). split; [by constructor|].
    intros from. cbn [imap]. f_equal.
    + unfold cardEffects, whenContext. by rewrite Hst, Hctx.
    + specialize (Heq (S from)). etrans; [|etrans; [exact Heq|]].
      * apply imap_ext. intros i x _. cbn. by rewrite Nat.add_succ_r.
      * apply imap_ext. intros i x _. cbn. by rewrite Nat.add_succ_r.
Qed.

(** C6.  On an initialised engine, whatever the dirty set holds, a
    resize leaves the full-redraw flag set, and batches that arrive
    before the next frame leave it set.  That frame paints the
    background over the new width and height and then, in catalog
    order, the card of every catalog metric in its grid cell from the
    metric's render state: clipped to the cell, the card fill, the
    accent bar at its left edge, and the label, the value and the unit
    of the render state as text.  It posts its debug report, asks for
    the next frame, and leaves the flag cleared and the dirty set
    empty. *)
Theorem resize_forces_full_redraw
        (w : Worker) (wd ht d now : number) (batches : list (list MetricRenderState)) :
  Initialized w →
  let w1 := runEvents ((λ updates, Message (MetricsBatch updates)) <$> batches)
                      (state_after (onMessage (Resize wd ht d)) w) in
  let w2 := state_after (renderFrame now) w1 in
  needsFullRedraw w1 = true
  ∧ (∃ states : list MetricRenderState,
        Forall2 (λ (m : MetricDescriptor) st, metricState w1 !! metric m = Some st)
                (metrics w) states
        ∧ effects_of (renderFrame now) w1 =
            (Draw <$> [SetFillStyle backgroundColor; FillRect 0 0 wd ht])
              ++ concat (imap (λ index (st : MetricRenderState),
                                 let r := computeCardRect wd index in
                                 Draw <$>
                                   [ Save; BeginPath; Rect (x r) (y r) (cardWidth r) (cardHeight r); Clip;
                                     SetFillStyle cardColor; SetGlobalAlpha 0.92;
                                     FillRect (x r) (y r) (cardWidth r) (cardHeight r);
                                     SetGlobalAlpha 1;
                                     SetFillStyle accentColor;
                                     FillRect (x r) (y r) 4 (cardHeight r);
                                     SetFillStyle textColor; SetFont 18 "Segoe UI" "sans-serif";
                                     FillText (Str (label st)) (x r + 20) (y r + 30);
                                     SetFillStyle valueColor; SetFont 48 "Rajdhani" "sans-serif";
                                     FillText (NumStr (value st)) (x r + 20) (y r + cardHeight r / 2 + 10);
                                     SetFillStyle textColor; SetFont 20 "Segoe UI" "sans-serif";
                                     FillText (Str (unit st)) (x r + 20) (y r + cardHeight r - 28);
                                     Restore ])
                              states)
              ++ [PostMessage (debugReport now w1); RequestAnimationFrame])
  ∧ needsFullRedraw w2 = false
  ∧ dirtyMetrics w2 = ∅.
Proof.
  intros ((cv & Hcv & H2d) & Hctx & Hstates) w1 w2.
  assert (redrawPending (metrics w) wd ht w1) as (Hctx1 & Hwd & Hht & Hms & Hfull & Hst1).
  { subst w1. apply batches_keep_redrawPending.
    unfold state_after. cbn [onMessage]. rewrite resize_run, Hcv, H2d.
    destruct w. unfold redrawPending. cbn in *. done. }
  split; [done|].
  destruct (cards_of_states w1 (metrics w) Hctx1 Hst1) as (states & Hall & Hcards).
  subst w2. unfold effects_of, state_after. rewrite renderFrame_run, Hctx1.
  cbn [fst snd]. unfold paintEffects, painted. 
  split; [|by destruct w1; cbn in *; subst].
  exists states. split; [done|].
  rewrite Hfull. unfold fullRedrawEffects, whenContext, backgroundOps.
  rewrite Hctx1, Hms, Hwd, Hht, <- app_assoc. do 3 f_equal.
  specialize (Hcards 0%nat). cbn in Hcards. rewrite Hwd in Hcards. exact Hcards.
Qed.

Lemma resize_forces_full_redraw_witness :
  let ms := [mkDescriptor "speed" "Speed" "km/h"; mkDescriptor "rpm" "Engine RPM" "rpm"] in
  let w := state_after (onMessage (Init (mkCanvas 1280 720 true) ms 1280 720 1))
                       (initial (λ _, 10)) in
  let batches := [[mkRenderState (mkDescriptor "rpm" "Engine RPM" "rpm") 3000 7]] in
  let w1 := runEvents ((λ updates, Message (MetricsBatch updates)) <$> batches)
                      (state_after (onMessage (Resize 800 600 2)) w) in
  let w2 := state_after (renderFrame 16) w1 in
  needsFullRedraw w1 = true
  ∧ (∃ states : list MetricRenderState,
        Forall2 (λ (m : MetricDescriptor) st, metricState w1 !! metric m = Some st)
                (metrics w) states
        ∧ effects_of (renderFrame 16) w1 =
            (Draw <$> [SetFillStyle backgroundColor; FillRect 0 0 800 600])
              ++ concat (imap (λ index st, Draw <$> cardOps (computeCardRect 800 index) st)
                              states)
              ++ [PostMessage (debugReport 16 w1); RequestAnimationFrame])
  ∧ needsFullRedraw w2 = false
  ∧ dirtyMetrics w2 = ∅.
Proof.
  intros ms w batches.
  apply (resize_forces_full_redraw w 800 600 2 16 batches).
  split; [|split].
  - eexists. split; reflexivity.
  - reflexivity.
  - repeat constructor; vm_compute; eauto.
Defined.

(** *** The debug report *)

Lemma whenContext_draws (w : Worker) (ops : list DrawOp) :
  Forall isDraw (whenContext w ops).
Proof.
  unfold whenContext. destruct (ctx w); [|constructor].
  apply Forall_fmap, Forall_true. by intros op.
Qed.

Lemma Forall_imap_all {A B} (P : B → Prop) (l : list A) :
  ∀ f : nat → A → B, (∀ i a, P (f i a)) → Forall P (imap f l).
Proof.
  induction l as [|a l IH]; intros f Hf; cbn [imap]; constructor; [done|].
  apply IH. intros i b. apply Hf.
Qed.

Lemma paintEffects_draws (w : Worker) : Forall isDraw (paintEffects w).
Proof.
  assert (∀ i d, Forall isDraw (cardEffects w i d)) as Hcard.
  { intros i d. unfold cardEffects.
    destruct (metricState w !! metric d); [apply whenContext_draws|constructor]. }
  unfold paintEffects, fullRedrawEffects, partialRedrawEffects.
  destruct (needsFullRedraw w); [|destruct (0 <? size (dirtyMetrics w))%nat].
  - apply Forall_app. split; [apply whenContext_draws|].
    apply Forall_concat, Forall_imap_all, Hcard.
  - apply Forall_concat, Forall_imap_all. intros i d.
    destruct (bool_decide _); [|constructor].
    apply Forall_app. split; [apply whenContext_draws|apply Hcard].
  - constructor.
Qed.

(** C9, amended.  On an engine that holds its context, every frame,
    whether it redraws or not, ends by posting one debug report and
    asking for the next frame; everything before the report is a call on
    the drawing context, and nothing is drawn when no full redraw is
    pending and the dirty set is empty.  The report carries four values:
    the frame rate, which is [1000 / (now - lastFrameTime)] when [now] is
    later than the last frame time and the rate reported before
    otherwise; the time the render pass took by the clock; and the 0.5
    and 0.95 quantiles of the latency window.  The frame rate and render
    time reported are the ones the engine keeps. *)
Theorem frame_posts_debug_report (w : Worker) (now : number) :
  is_Some (ctx w) →
  let w' := state_after (renderFrame now) w in
  ∃ (paint : list Effect) (report : DebugMessage),
    effects_of (renderFrame now) w = paint ++ [PostMessage report; RequestAnimationFrame]
    ∧ Forall isDraw paint
    ∧ (needsFullRedraw w = false → dirtyMetrics w = ∅ → paint = [])
    ∧ msg_fps report =
        (if decide (0 < now - lastFrameTime w)
         then 1000 / (now - lastFrameTime w) else fps w)
    ∧ msg_renderMs report = clock w (S (clockReads w)) - clock w (clockReads w)
    ∧ msg_latencyP50 report = quantile (latencySamples w) 0.5
    ∧ msg_latencyP95 report = quantile (latencySamples w) 0.95
    ∧ fps w' = msg_fps report
    ∧ renderMs w' = msg_renderMs report
    ∧ lastFrameTime w' = now.
Proof.
  intros [c Hctx] w'. subst w'. unfold effects_of, state_after.
  rewrite renderFrame_run, Hctx. cbn [fst snd].
  exists (paintEffects w), (debugReport now w).
  split; [done|]. split; [apply paintEffects_draws|]. split.
  { intros Hfull Hdirty. unfold paintEffects. rewrite Hfull, Hdirty. done. }
  unfold debugReport, nextFps. cbn [msg_fps msg_renderMs msg_latencyP50 msg_latencyP95].
  repeat (split; [done|]).
  destruct w as [? ? ? ? ? ? ? dirty full ? ? ? ? ? ?]. unfold painted. cbn.
  by destruct full, (size dirty).
Qed.

Lemma frame_posts_debug_report_witness :
  let w := state_after (onMessage (Init (mkCanvas 1280 720 true) [] 1280 720 1))
                       (initial (λ n, inject_Z (Z.of_nat n))) in
  let w' := state_after (renderFrame 20) w in
  ∃ (paint : list Effect) (report : DebugMessage),
    effects_of (renderFrame 20) w = paint ++ [PostMessage report; RequestAnimationFrame]
    ∧ Forall isDraw paint
    ∧ (needsFullRedraw w = false → dirtyMetrics w = ∅ → paint = [])
    ∧ msg_fps report =
        (if decide (0 < 20 - lastFrameTime w)
         then 1000 / (20 - lastFrameTime w) else fps w)
    ∧ msg_renderMs report = clock w (S (clockReads w)) - clock w (clockReads w)
    ∧ msg_latencyP50 report = quantile (latencySamples w) 0.5
    ∧ msg_latencyP95 report = quantile (latencySamples w) 0.95
    ∧ fps w' = msg_fps report
    ∧ renderMs w' = msg_renderMs report
    ∧ lastFrameTime w' = 20.
Proof.
  intros w. apply (frame_posts_debug_report w 20). vm_compute. eauto.
Defined.

(** C9 as stated fails: a frame whose timestamp is not later than the
    last frame time reports the frame rate kept from before, not
    [1000 / (now - lastFrameTime)]. *)
Lemma frame_rate_kept_when_time_stalls :
  let w := state_after (onMessage (Init (mkCanvas 1280 720 true) [] 1280 720 1))
                       (initial (λ _, 100)) in
  lastFrameTime w = 100
  ∧ (∃ report,
        last (removelast (effects_of (renderFrame 100) w)) = Some (PostMessage report)
        ∧ msg_fps report = 60
        ∧ ¬ msg_fps report == 1000 / (100 - lastFrameTime w))
  ∧ (∃ report,
        last (removelast (effects_of (renderFrame 90) w)) = Some (PostMessage report)
        ∧ msg_fps report = 60
        ∧ ¬ msg_fps report == 1000 / (90 - lastFrameTime w)).
Proof.
  intros w. split; [reflexivity|]. split.
  - eexists. split; [vm_compute; reflexivity|]. split; [reflexivity|].
    vm_compute. discriminate.
  - eexists. split; [vm_compute; reflexivity|]. split; [reflexivity|].
    vm_compute. discriminate.
Qed.

(** *** The card grid *)

Lemma xIndex_column (index : nat) : Z.rem (Z.of_nat index) 4 = Z.of_nat (column index).
Proof.
  unfold column. rewrite Z.rem_mod_nonneg by lia. by rewrite Nat2Z.inj_mod.
Qed.

Lemma yIndex_row (index : nat) :
  Math_floor (of_nat index / inject_Z 4) = Z.of_nat (row index).
Proof.
  unfold row, Math_floor, of_nat. rewrite Nat2Z.inj_div. cbn.
  by rewrite Z.mul_1_r.
Qed.

(** C8.  The grid has 4 columns and a gap of 16: a card is
    [(width - 16 * (4 + 1)) / 4] wide and 120 high, and the card of the
    metric at catalog index [i] stands in column [i mod 4] and row
    [i / 4], each column one card width and one gap to the right of the
    one before, each row one card height and one gap below.  At width
    1280 a card is 300 wide, and index 5 is row 1, column 1. *)
Theorem card_grid_geometry :
  (∀ (width : number) (index : nat),
      let r := computeCardRect width index in
      cardWidth r == (width - 16 * (4 + 1)) / 4
      ∧ cardHeight r = 120
      ∧ x r == 16 + of_nat (column index) * (cardWidth r + 16)
      ∧ y r == 16 + of_nat (row index) * (cardHeight r + 16))
  ∧ cardWidth (computeCardRect 1280 5) == (1280 - 16 * 5) / 4
  ∧ cardWidth (computeCardRect 1280 5) == 300
  ∧ column 5 = 1%nat ∧ row 5 = 1%nat
  ∧ x (computeCardRect 1280 5) == 16 + 1 * (300 + 16)
  ∧ y (computeCardRect 1280 5) == 16 + 1 * (120 + 16).
Proof.
  split.
  - intros width index r. subst r. unfold computeCardRect.
    cbn [x y cardWidth cardHeight]. rewrite xIndex_column, yIndex_row.
    repeat split; reflexivity.
  - repeat split; reflexivity.
Qed.

(** *** Quantiles of the latency window *)

#[local] Instance ascending_total : Total ascending.
Proof.
  intros a b. unfold ascending, compareFn.
  destruct (Qlt_le_dec b a) as [H|H]; [right|left]; lra.
Qed.

Lemma Sorted_weaken {A} (R R' : A → A → Prop) (l : list A) :
  (∀ a b, R a b → R' a b) → Sorted R l → Sorted R' l.
Proof.
  intros HR. induction 1 as [|a l _ IH Hhd]; constructor; [done|].
  destruct Hhd; constructor. by apply HR.
Qed.

Lemma sort_ascending (values : list number) :
  sort values ≡ₚ values ∧ Sorted Qle (sort values).
Proof.
  split; [apply merge_sort_Permutation|].
  apply (Sorted_weaken ascending); [|apply Sorted_merge_sort, _].
  intros a b. unfold ascending, compareFn. lra.
Qed.

Lemma integral_floor_ceiling (a : number) : integral a ↔ Qfloor a = Qceiling a.
Proof.
  split.
  - intros [k Hk]. rewrite Hk. by rewrite Qfloor_Z, Qceiling_Z.
  - intros Heq. exists (Qfloor a). apply Qle_antisym; [|apply Qfloor_le].
    rewrite Heq. apply Qle_ceiling.
Qed.

Lemma index_in_range (n : nat) (q : number) :
  (0 < n)%nat → 0 <= q → q <= 1 →
  let index := (of_nat n - 1) * q in
  (0 ≤ Qfloor index)%Z ∧ (Qfloor index ≤ Qceiling index)%Z
  ∧ (Qceiling index < Z.of_nat n)%Z.
Proof.
  intros Hn Hq0 Hq1 index.
  assert (of_nat n - 1 == inject_Z (Z.of_nat n - 1)) as Hm
    by (unfold of_nat, Z.sub; rewrite inject_Z_plus, inject_Z_opp; reflexivity).
  assert (0 <= inject_Z (Z.of_nat n - 1)) as Hm0
    by (rewrite <- (Zle_Qle 0); lia).
  assert (0 <= index) as Hlo.
  { subst index. rewrite Hm. by apply Qmult_le_0_compat. }
  assert (index <= inject_Z (Z.of_nat n - 1)) as Hhi.
  { subst index. rewrite Hm.
    rewrite <- (Qmult_1_r (inject_Z (Z.of_nat n - 1))) at 2.
    rewrite !(Qmult_comm (inject_Z (Z.of_nat n - 1))).
    by apply Qmult_le_compat_r. }
  split; [|split].
  - apply (Qfloor_resp_le 0 index Hlo).
  - rewrite Zle_Qle. eapply Qle_trans; [apply Qfloor_le|apply Qle_ceiling].
  - apply Qceiling_resp_le in Hhi. rewrite Qceiling_Z in Hhi. lia.
Qed.

Lemma at_index_lookup (arr : list number) (i : Z) (a : number) :
  (0 ≤ i)%Z → arr !! Z.to_nat i = Some a → at_index arr i = Num a.
Proof.
  intros Hi Ha. unfold at_index. rewrite Ha.
  by destruct (Z.ltb_spec i 0); [lia|].
Qed.

(** C2, amended.  On an empty window the quantile is 0.  On a window
    that is not empty, for every [q] from 0 to 1, [quantile] returns a
    number, and that number is the interpolated order statistic of the
    window at [q].  For the window 10, 20, 30, 40, 50 the quantile at
    0.5 is 30 and the quantile at 0.95 lies 0.8 of the way from 40, the
    second largest value, to 50, the largest: 48. *)
Theorem quantile_order_statistic :
  (∀ q : number, quantile [] q = Num 0)
  ∧ (∀ (window : list number) (q : number),
        window ≠ [] → 0 <= q → q <= 1 →
        ∃ v : number, quantile window q = Num v ∧ order_statistic window q v)
  ∧ quantile [10; 20; 30; 40; 50] 0.5 = Num 30
  ∧ (∃ v : number,
        quantile [10; 20; 30; 40; 50] 0.95 = Num v
        ∧ v == interpolation 40 50 0.8 ∧ v == 48).
Proof.
  split; [done|]. split.
  2:{ split; [by vm_compute|]. eexists. split; [by vm_compute|]. split; reflexivity. }
  intros window q Hne Hq0 Hq1.
  destruct (sort_ascending window) as [Hperm Hsorted].
  assert (length (sort window) = length window) as Hlen by (by rewrite Hperm).
  assert (0 < length window)%nat as Hpos by (destruct window; [done|cbn; lia]).
  destruct (index_in_range (length window) q Hpos Hq0 Hq1) as (Hf0 & Hfc & Hcn).
  set (index := (of_nat (length window) - 1) * q) in *.
  destruct (lookup_lt_is_Some_2 (sort window) (Z.to_nat (Qfloor index))) as [lo Hlo];
    [lia|].
  destruct (lookup_lt_is_Some_2 (sort window) (Z.to_nat (Qceiling index))) as [hi Hhi];
    [lia|].
  assert (quantile window q =
            if (Qfloor index =? Qceiling index)%Z then Num lo
            else Num (lo * (1 - (index - inject_Z (Qfloor index)))
                      + hi * (index - inject_Z (Qfloor index)))) as Hq.
  { unfold quantile. destruct window; [done|]. cbn [length Nat.eqb].
    rewrite Hlen. fold index. unfold Math_floor, Math_ceil.
    rewrite (at_index_lookup _ _ lo), (at_index_lookup _ _ hi) by (done || lia).
    done. }
  destruct (Z.eqb_spec (Qfloor index) (Qceiling index)) as [Heq|Hneq].
  - exists lo. split; [done|]. exists (sort window). repeat (split; [done|]).
    exists lo, hi. repeat (split; [done|]). left. split; [|done].
    by apply integral_floor_ceiling.
  - eexists. split; [exact Hq|]. exists (sort window). repeat (split; [done|]).
    exists lo, hi. repeat (split; [done|]). right. split.
    + by rewrite integral_floor_ceiling.
    + unfold interpolation, number in *. fold index. ring.
Qed.

Lemma quantile_order_statistic_witness :
  ∃ v : number,
    quantile [42; 17; 99] (1 # 4) = Num v ∧ order_statistic [42; 17; 99] (1 # 4) v.
Proof.
  apply (proj1 (proj2 quantile_order_statistic) [42; 17; 99] (1 # 4)).
  - discriminate.
  - by vm_compute.
  - by vm_compute.
Defined.

(** C2 as stated fails for a [q] outside the range from 0 to 1: the
    index leaves the window and no number comes back. *)
Lemma quantile_outside_unit_interval :
  quantile [10; 20; 30] 2 = Undefined
  ∧ quantile [10; 20; 30] (5 # 4) = NaN
  ∧ ¬ ∃ v : number, quantile [10; 20; 30] 2 = Num v.
Proof.
  split; [by vm_compute|]. split; [by vm_compute|].
  intros [v Hv]. vm_compute in Hv. discriminate.
Qed.

(** *** Runs of the event loop *)

Lemma posts_app (a b : list Effect) : posts (a ++ b) = posts a ++ posts b.
Proof.
  induction a as [|[op|m|] a IH]; cbn [posts app]; [done|done| |done].
  by rewrite IH.
Qed.

Lemma posts_draws (effects : list Effect) : Forall isDraw effects → posts effects = [].
Proof.
  induction 1 as [|[op|m|] effects He _ IH]; cbn [posts]; try done.
Qed.

Lemma dispatch_Initialized (e : Event) (w : Worker) :
  keepsContext e → Initialized w → Initialized (state_after (dispatch e) w).
Proof.
  intros He ((cv & Hcv & H2d) & Hctx & Hstates).
  destruct e as [[cv' ms wd ht d|wd ht d|updates]|now]; cbn [dispatch keepsContext] in *.
  - by apply init_Initialized.
  - unfold state_after. cbn [onMessage]. rewrite resize_run, Hcv, H2d.
    destruct w. unfold Initialized. cbn in *. split; [eauto|done].
  - unfold state_after. rewrite metricsBatch_run, foldl_applied.
    destruct w. unfold Initialized. cbn in *. split; [eauto|]. split; [done|].
    eapply Forall_impl; [exact Hstates|]. intros m. apply mergedAll_is_Some.
  - unfold state_after. rewrite renderFrame_run, Hctx.
    destruct w as [? ? ? ? ? ? ? dirty full ? ? ? ? ? ?].
    unfold Initialized, painted. cbn in *.
    destruct full, (size dirty); cbn; (split; [eauto|done]).
Qed.

Lemma dispatch_posts (e : Event) (w : Worker) :
  keepsContext e → Initialized w →
  posts (effects_of (dispatch e) w) =
    match e with
    | AnimationFrame now => [debugReport now w]
    | _ => []
    end.
Proof.
  intros He ((cv & Hcv & H2d) & Hctx & Hstates). unfold effects_of.
  destruct e as [[cv' ms wd ht d|wd ht d|updates]|now]; cbn [dispatch keepsContext] in *.
  - by rewrite init_run, He.
  - cbn [onMessage]. by rewrite resize_run, Hcv, H2d.
  - by rewrite metricsBatch_run.
  - rewrite renderFrame_run, Hctx. cbn [snd].
    by rewrite posts_app, (posts_draws _ (paintEffects_draws w)).
Qed.

(** Once the engine is initialised it stays so over resizes, batches,
    frames and further [init] messages whose surface yields a context:
    the context is never lost and every catalog metric keeps a render
    state; and over such a run every animation frame posts one debug
    report and nothing else does. *)
Theorem initialized_engine_reports_every_frame (events : list Event) :
  ∀ w : Worker,
    Initialized w → Forall keepsContext events →
    Initialized (runEvents events w)
    ∧ length (posts (effectsOf events w)) = length (frames events).
Proof.
  induction events as [|e events IH]; intros w Hw Hevents; [done|].
  apply Forall_cons in Hevents as [He Hevents].
  destruct (IH (state_after (dispatch e) w)) as [Hinit Hcount];
    [by apply dispatch_Initialized|done|].
  split; [exact Hinit|].
  cbn [effectsOf]. rewrite posts_app, length_app, Hcount, dispatch_posts by done.
  by destruct e as [[| |]|].
Qed.

Lemma initialized_engine_reports_every_frame_witness :
  let w := state_after (onMessage (Init (mkCanvas 1280 720 true)
                                        [mkDescriptor "speed" "Speed" "km/h"] 1280 720 1))
                       (initial (λ _, 10)) in
  let events := [AnimationFrame 16;
                 Message (MetricsBatch [mkRenderState (mkDescriptor "speed" "Speed" "km/h") 87 5]);
                 Message (Resize 800 600 2);
                 AnimationFrame 33] in
  Initialized (runEvents events w)
  ∧ length (posts (effectsOf events w)) = length (frames events).
Proof.
  intros w events. apply (initialized_engine_reports_every_frame events w).
  - split; [|split].
    + eexists. split; reflexivity.
    + reflexivity.
    + repeat constructor; vm_compute; eauto.
  - repeat constructor.
Defined.

Lemma mergedAll_app (a b : list MetricRenderState) (states : gmap string MetricRenderState) :
  mergedAll states (a ++ b) = mergedAll (mergedAll states a) b.
Proof. apply foldl_app. Qed.

Lemma dispatch_before_init (e : Event) (w : Worker) :
  notInit e → canvas w = None → ctx w = None →
  let w' := state_after (dispatch e) w in
  canvas w' = None ∧ ctx w' = None
  ∧ needsFullRedraw w' = needsFullRedraw w
  ∧ metrics w' = metrics w
  ∧ dirtyMetrics w' = dirtyMetrics w ∪ list_to_set (updateIds (updatesIn [e]))
  ∧ metricState w' = mergedAll (metricState w) (updatesIn [e])
  ∧ Forall (λ eff, eff = RequestAnimationFrame) (effects_of (dispatch e) w).
Proof.
  intros He Hcv Hctx. unfold state_after, effects_of, updatesIn.
  destruct e as [[cv' ms wd ht d|wd ht d|updates]|now]; cbn [dispatch notInit] in *;
    [done|..].
  - cbn [onMessage]. rewrite resize_run, Hcv. destruct w. cbn in *.
    by rewrite (right_id_L ∅ (∪)).
  - rewrite metricsBatch_run, foldl_applied. destruct w. cbn in *.
    by rewrite app_nil_r.
  - rewrite renderFrame_run, Hctx. destruct w. cbn in *.
    rewrite (right_id_L ∅ (∪)). repeat split; try done. by constructor.
Qed.

(** Before any [init] arrives nothing is drawn and nothing is posted:
    the only effect of an event is a frame asking for the next frame.
    Resizes only record the size; batches are applied all the same, so
    their render states are held and their metric ids pile up in the
    dirty set, which no frame clears; the full-redraw flag stays set. *)
Theorem nothing_painted_before_init (clk : nat → number) (events : list Event) :
  Forall notInit events →
  let w := runEvents events (initial clk) in
  canvas w = None ∧ ctx w = None ∧ needsFullRedraw w = true
  ∧ dirtyMetrics w = list_to_set (updateIds (updatesIn events))
  ∧ metricState w = mergedAll ∅ (updatesIn events)
  ∧ Forall (λ eff, eff = RequestAnimationFrame) (effectsOf events (initial clk)).
Proof.
  intros Hevents.
  assert (∀ w0, canvas w0 = None → ctx w0 = None →
            let w := runEvents events w0 in
            canvas w = None ∧ ctx w = None ∧ needsFullRedraw w = needsFullRedraw w0
            ∧ dirtyMetrics w = dirtyMetrics w0 ∪ list_to_set (updateIds (updatesIn events))
            ∧ metricState w = mergedAll (metricState w0) (updatesIn events)
            ∧ Forall (λ eff, eff = RequestAnimationFrame) (effectsOf events w0)) as Hgen.
  { induction Hevents as [|e events He _ IH]; intros w0 Hcv Hctx.
    - cbn. by rewrite (right_id_L ∅ (∪)).
    - destruct (dispatch_before_init e w0 He Hcv Hctx)
        as (Hcv1 & Hctx1 & Hfull1 & _ & Hdirty1 & Hst1 & Heff1).
      destruct (IH _ Hcv1 Hctx1) as (Hcv2 & Hctx2 & Hfull2 & Hdirty2 & Hst2 & Heff2).
      cbn [runEvents foldl effectsOf] in *.
      fold (runEvents events (state_after (dispatch e) w0)) in *.
      rewrite updatesIn_cons. unfold updateIds in *.
      rewrite fmap_app, list_to_set_app_L, mergedAll_app.
      repeat split; try done.
      + congruence.
      + by rewrite Hdirty2, Hdirty1, (assoc_L (∪)).
      + by rewrite Hst2, Hst1.
      + by apply Forall_app. }
  intros w. subst w. destruct (Hgen (initial clk)) as (?&?&?&Hd&?&?); [done..|].
  repeat split; try done. rewrite Hd. cbn. by rewrite (left_id_L ∅ (∪)).
Qed.

Lemma nothing_painted_before_init_witness :
  let events := [AnimationFrame 16;
                 Message (Resize 800 600 2);
                 Message (MetricsBatch [mkRenderState (mkDescriptor "speed" "Speed" "km/h") 87 5]);
                 AnimationFrame 33] in
  let w := runEvents events (initial (λ _, 10)) in
  canvas w = None ∧ ctx w = None ∧ needsFullRedraw w = true
  ∧ dirtyMetrics w = list_to_set (updateIds (updatesIn events))
  ∧ metricState w = mergedAll ∅ (updatesIn events)
  ∧ Forall (λ eff, eff = RequestAnimationFrame) (effectsOf events (initial (λ _, 10))).
Proof.
  intros events. apply (nothing_painted_before_init (λ _, 10) events).
  repeat constructor.
Defined.

(** An [init] whose surface yields no 2D context throws: it schedules no
    frame and has no other effect, seeds no render state and leaves the
    dirty set, the flag and the latency window as they were; the catalog
    and size are recorded all the same.  The context is then gone, also
    when an earlier [init] had acquired one, so any frame that still runs
    only asks for the next frame: it draws nothing, posts no report and
    changes nothing. *)
Theorem init_without_context_is_fatal
        (w : Worker) (cv : OffscreenCanvas) (ms : list MetricDescriptor) (wd ht d : number) :
  supports2d cv = false →
  let w' := state_after (onMessage (Init cv ms wd ht d)) w in
  completion_of (onMessage (Init cv ms wd ht d)) w = Thrown "Unable to acquire 2D context"
  ∧ effects_of (onMessage (Init cv ms wd ht d)) w = []
  ∧ ctx w' = None
  ∧ metrics w' = ms ∧ width w' = wd ∧ height w' = ht ∧ dpr w' = d
  ∧ metricState w' = metricState w
  ∧ dirtyMetrics w' = dirtyMetrics w
  ∧ needsFullRedraw w' = needsFullRedraw w
  ∧ latencySamples w' = latencySamples w
  ∧ ∀ now : number,
      effects_of (renderFrame now) w' = [RequestAnimationFrame]
      ∧ state_after (renderFrame now) w' = w'.
Proof.
  intros Hcv w'. subst w'. unfold completion_of, effects_of, state_after.
  rewrite init_run, Hcv. destruct w. cbn.
  repeat split; try done; by rewrite renderFrame_run.
Qed.

Lemma init_without_context_is_fatal_witness :
  let w := state_after (onMessage (Init (mkCanvas 1280 720 true)
                                        [mkDescriptor "speed" "Speed" "km/h"] 1280 720 1))
                       (initial (λ _, 10)) in
  let cv := mkCanvas 300 150 false in
  let ms := [mkDescriptor "rpm" "Engine RPM" "rpm"] in
  let w' := state_after (onMessage (Init cv ms 640 480 1)) w in
  completion_of (onMessage (Init cv ms 640 480 1)) w = Thrown "Unable to acquire 2D context"
  ∧ effects_of (onMessage (Init cv ms 640 480 1)) w = []
  ∧ ctx w' = None
  ∧ metrics w' = ms ∧ width w' = 640 ∧ height w' = 480 ∧ dpr w' = 1
  ∧ metricState w' = metricState w
  ∧ dirtyMetrics w' = dirtyMetrics w
  ∧ needsFullRedraw w' = needsFullRedraw w
  ∧ latencySamples w' = latencySamples w
  ∧ ∀ now : number,
      effects_of (renderFrame now) w' = [RequestAnimationFrame]
      ∧ state_after (renderFrame now) w' = w'.
Proof.
  intros w cv ms.
  apply (init_without_context_is_fatal w cv ms 640 480 1). reflexivity.
Defined.

(** *** Seeding and repainting *)

Lemma lastWith_cons {A} (key : A → string) (id : string) (a : A) (l : list A) :
  lastWith key id (a :: l) =
    if decide (key a = id)
    then match lastWith key id l with Some b => Some b | None => Some a end
    else lastWith key id l.
Proof.
  unfold lastWith. rewrite filter_cons. destruct (decide (key a = id)); [|done].
  by rewrite last_cons.
Qed.

Lemma lastWith_None {A} (key : A → string) (id : string) (l : list A) :
  id ∉ key <$> l → lastWith key id l = None.
Proof.
  induction l as [|a l IH]; intros Hid; [done|].
  rewrite lastWith_cons. cbn in Hid. apply not_elem_of_cons in Hid as [Hne Hid].
  destruct (decide (key a = id)); [congruence|by apply IH].
Qed.

Lemma lastWith_NoDup {A} (key : A → string) (a : A) (l : list A) :
  NoDup (key <$> l) → a ∈ l → lastWith key (key a) l = Some a.
Proof.
  induction l as [|b l IH]; intros Hdup Ha; [by apply elem_of_nil in Ha|].
  cbn in Hdup. apply NoDup_cons in Hdup as [Hb Hdup].
  rewrite lastWith_cons. apply elem_of_cons in Ha as [->|Ha].
  - rewrite decide_True by done. by rewrite lastWith_None.
  - rewrite decide_False; [by apply IH|].
    intros Heq. apply Hb. rewrite Heq. by apply list_elem_of_fmap_2.
Qed.

Lemma seeded_lookup (ms : list MetricDescriptor) (id : string) :
  ∀ states : gmap string MetricRenderState,
    seeded states ms !! id =
      match lastWith metric id ms with
      | Some m => Some (mkRenderState m 0 0)
      | None => states !! id
      end.
Proof.
  induction ms as [|m ms IH]; intros states; [done|].
  cbn [seeded foldl]. fold (seeded (<[metric m := mkRenderState m 0 0]> states) ms).
  rewrite IH, lastWith_cons. destruct (lastWith metric id ms) as [m'|].
  - by destruct (decide (metric m = id)).
  - destruct (decide (metric m = id)) as [<-|Hne].
    + by rewrite lookup_insert_eq.
    + by rewrite lookup_insert_ne.
Qed.

(** An [init] whose surface yields a 2D context completes, from any
    state.  Its context calls are the set-up of [ensureContext], issued
    twice: image smoothing on, the text baseline "middle" and the
    transform set to the pixel ratio; then it asks for the first frame.
    The catalog, the width, the height and the pixel ratio are recorded,
    every catalog id is dirty and a full redraw is pending.  Every
    metric of the catalog gets the render state with value 0 and
    timestamp 0, also when it had a state before (for an id listed
    twice, from the last descriptor listed); render states of other ids
    stay.  The latency window stays. *)
Theorem init_seeds_catalog
        (w : Worker) (cv : OffscreenCanvas) (ms : list MetricDescriptor) (wd ht d : number) :
  supports2d cv = true →
  let w' := state_after (onMessage (Init cv ms wd ht d)) w in
  completion_of (onMessage (Init cv ms wd ht d)) w = Normal tt
  ∧ effects_of (onMessage (Init cv ms wd ht d)) w =
      (Draw <$> [SetImageSmoothingEnabled true; SetTextBaseline "middle";
                 SetTransform d 0 0 d 0 0])
        ++ (Draw <$> [SetImageSmoothingEnabled true; SetTextBaseline "middle";
                      SetTransform d 0 0 d 0 0])
        ++ [RequestAnimationFrame]
  ∧ ctx w' = Some Ctx2D
  ∧ metrics w' = ms ∧ width w' = wd ∧ height w' = ht ∧ dpr w' = d
  ∧ dirtyMetrics w' = catalogIds ms
  ∧ needsFullRedraw w' = true
  ∧ latencySamples w' = latencySamples w
  ∧ ∀ id : string,
      metricState w' !! id =
        match lastWith metric id ms with
        | Some m => Some (mkRenderState m 0 0)
        | None => metricState w !! id
        end.
Proof.
  intros Hcv w'. subst w'. unfold completion_of, effects_of, state_after.
  rewrite init_run, Hcv. destruct w. cbn.
  repeat (split; [done|]). intros id. apply seeded_lookup.
Qed.

Lemma init_seeds_catalog_witness :
  let w := state_after (applyUpdate (mkRenderState (mkDescriptor "speed" "Speed" "km/h") 87 5))
                       (initial (λ _, 10)) in
  let cv := mkCanvas 300 150 true in
  let ms := [mkDescriptor "speed" "Speed" "km/h"; mkDescriptor "rpm" "Engine RPM" "rpm"] in
  let w' := state_after (onMessage (Init cv ms 1280 720 2)) w in
  completion_of (onMessage (Init cv ms 1280 720 2)) w = Normal tt
  ∧ effects_of (onMessage (Init cv ms 1280 720 2)) w =
      (Draw <$> [SetImageSmoothingEnabled true; SetTextBaseline "middle";
                 SetTransform 2 0 0 2 0 0])
        ++ (Draw <$> [SetImageSmoothingEnabled true; SetTextBaseline "middle";
                      SetTransform 2 0 0 2 0 0])
        ++ [RequestAnimationFrame]
  ∧ ctx w' = Some Ctx2D
  ∧ metrics w' = ms ∧ width w' = 1280 ∧ height w' = 720 ∧ dpr w' = 2
  ∧ dirtyMetrics w' = catalogIds ms
  ∧ needsFullRedraw w' = true
  ∧ latencySamples w' = latencySamples w
  ∧ ∀ id : string,
      metricState w' !! id =
        match lastWith metric id ms with
        | Some m => Some (mkRenderState m 0 0)
        | None => metricState w !! id
        end.
Proof.
  intros w cv ms. apply (init_seeds_catalog w cv ms 1280 720 2). reflexivity.
Defined.

(** After an [init] with a catalog of distinct ids whose surface yields
    a context, the next frame is a full redraw: it paints the background
    over the given width and height and then, in catalog order, the card
    of every catalog metric in its grid cell, whatever render states
    were held before the [init]: clipped to the cell, the card fill, the
    accent bar at its left edge, and as text the label of the catalog,
    the value 0 and the unit of the catalog.  Then it posts its report
    and asks for the next frame. *)
Theorem first_frame_paints_every_card_at_zero
        (w : Worker) (cv : OffscreenCanvas) (ms : list MetricDescriptor)
        (wd ht d now : number) :
  supports2d cv = true →
  NoDup (metric <$> ms) →
  let w1 := state_after (onMessage (Init cv ms wd ht d)) w in
  effects_of (renderFrame now) w1 =
    (Draw <$> [SetFillStyle backgroundColor; FillRect 0 0 wd ht])
      ++ concat (imap (λ index (m : MetricDescriptor),
                         let r := computeCardRect wd index in
                         Draw <$>
                           [ Save; BeginPath; Rect (x r) (y r) (cardWidth r) (cardHeight r); Clip;
                             SetFillStyle cardColor; SetGlobalAlpha 0.92;
                             FillRect (x r) (y r) (cardWidth r) (cardHeight r);
                             SetGlobalAlpha 1;
                             SetFillStyle accentColor;
                             FillRect (x r) (y r) 4 (cardHeight r);
                             SetFillStyle textColor; SetFont 18 "Segoe UI" "sans-serif";
                             FillText (Str (label m)) (x r + 20) (y r + 30);
                             SetFillStyle valueColor; SetFont 48 "Rajdhani" "sans-serif";
                             FillText (NumStr (0)) (x r + 20) (y r + cardHeight r / 2 + 10);
                             SetFillStyle textColor; SetFont 20 "Segoe UI" "sans-serif";
                             FillText (Str (unit m)) (x r + 20) (y r + cardHeight r - 28);
                             Restore ])
                      ms)
      ++ [PostMessage (debugReport now w1); RequestAnimationFrame].
Proof.
  intros Hcv Hdup w1.
  assert (ctx w1 = Some Ctx2D ∧ width w1 = wd ∧ height w1 = ht ∧ metrics w1 = ms
          ∧ needsFullRedraw w1 = true
          ∧ ∀ id, metricState w1 !! id =
                    match lastWith metric id ms with
                    | Some m => Some (mkRenderState m 0 0)
                    | None => metricState w !! id
                    end) as (Hctx & Hwd & Hht & Hms & Hfull & Hstates).
  { subst w1. unfold state_after. rewrite init_run, Hcv. destruct w. cbn.
    repeat (split; [done|]). intros id. apply seeded_lookup. }
  unfold effects_of. rewrite renderFrame_run, Hctx. cbn [snd].
  unfold paintEffects, fullRedrawEffects, whenContext, backgroundOps.
  rewrite Hfull, Hctx, Hms, Hwd, Hht, <- app_assoc.
  rewrite (imap_ext (cardEffects w1)
             (λ index m, Draw <$> cardOps (computeCardRect wd index) (mkRenderState m 0 0)));
    [done|].
  intros i m Hm. unfold cardEffects, whenContext.
  rewrite Hstates, Hctx, Hwd, (lastWith_NoDup metric m ms); [done|done|].
  by eapply list_elem_of_lookup_2.
Qed.

Lemma first_frame_paints_every_card_at_zero_witness :
  let w := state_after (applyUpdate (mkRenderState (mkDescriptor "speed" "Speed" "km/h") 87 5))
                       (initial (λ _, 10)) in
  let cv := mkCanvas 300 150 true in
  let ms := [mkDescriptor "speed" "Speed" "km/h"; mkDescriptor "rpm" "Engine RPM" "rpm"] in
  let w1 := state_after (onMessage (Init cv ms 1280 720 1)) w in
  effects_of (renderFrame 16) w1 =
    (Draw <$> [SetFillStyle backgroundColor; FillRect 0 0 1280 720])
      ++ concat (imap (λ index m,
                         Draw <$> cardOps (computeCardRect 1280 index) (mkRenderState m 0 0))
                      ms)
      ++ [PostMessage (debugReport 16 w1); RequestAnimationFrame].
Proof.
  intros w cv ms.
  apply (first_frame_paints_every_card_at_zero w cv ms 1280 720 1 16).
  - reflexivity.
  - apply (bool_decide_unpack _). by vm_compute.
Defined.

(** A frame leaves nothing to repaint: on an engine that holds its
    context, the frame that follows a frame with no batch, resize or
    [init] in between draws nothing; it still posts its report and asks
    for the next frame. *)
Theorem frame_after_frame_draws_nothing (w : Worker) (now1 now2 : number) :
  is_Some (ctx w) →
  let w1 := state_after (renderFrame now1) w in
  needsFullRedraw w1 = false
  ∧ dirtyMetrics w1 = ∅
  ∧ effects_of (renderFrame now2) w1 =
      [PostMessage (debugReport now2 w1); RequestAnimationFrame].
Proof.
  intros [c Hctx] w1.
  assert (ctx w1 = Some c ∧ needsFullRedraw w1 = false ∧ dirtyMetrics w1 = ∅)
    as (Hctx1 & Hfull & Hdirty).
  { subst w1. unfold state_after. rewrite renderFrame_run, Hctx.
    destruct w as [? ? ? ? ? ? ? dirty full ? ? ? ? ? ?]. unfold painted. cbn in *.
    destruct full; [done|]. destruct (size dirty) eqn:Hsize; cbn; [|done].
    repeat split; try done. by apply size_empty_inv, leibniz_equiv in Hsize. }
  repeat split; try done.
  unfold effects_of. rewrite renderFrame_run, Hctx1. cbn [snd].
  unfold paintEffects. by rewrite Hfull, Hdirty.
Qed.

Lemma frame_after_frame_draws_nothing_witness :
  let w := state_after (onMessage (Init (mkCanvas 1280 720 true)
                                        [mkDescriptor "speed" "Speed" "km/h"] 1280 720 1))
                       (initial (λ _, 10)) in
  let w1 := state_after (renderFrame 16) w in
  needsFullRedraw w1 = false
  ∧ dirtyMetrics w1 = ∅
  ∧ effects_of (renderFrame 33) w1 =
      [PostMessage (debugReport 33 w1); RequestAnimationFrame].
Proof.
  intros w. apply (frame_after_frame_draws_nothing w 16 33). vm_compute. eauto.
Defined.

Lemma concat_imap_nil {A B} (l : list A) :
  ∀ f : nat → A → list B, (∀ i a, l !! i = Some a → f i a = []) → concat (imap f l) = [].
Proof.
  induction l as [|a l IH]; intros f Hf; [done|].
  cbn [imap concat]. rewrite (Hf 0%nat a), IH; [done| |done].
  intros i b Hb. by apply (Hf (S i)).
Qed.

Lemma partialRedraw_clean (w : Worker) :
  dirtyMetrics w = ∅ → partialRedrawEffects w = [].
Proof.
  intros Hdirty. unfold partialRedrawEffects. apply concat_imap_nil.
  intros i m _. rewrite Hdirty. by rewrite bool_decide_eq_false_2 by apply not_elem_of_empty.
Qed.

Lemma paintEffects_partial (w : Worker) :
  needsFullRedraw w = false → paintEffects w = partialRedrawEffects w.
Proof.
  intros Hfull. unfold paintEffects. rewrite Hfull.
  destruct (size (dirtyMetrics w)) eqn:Hsize; [|done]. cbn.
  symmetry. apply partialRedraw_clean. by apply size_empty_inv, leibniz_equiv in Hsize.
Qed.

Lemma repaints_of_states (w : Worker) (ids : list string) (cat : list MetricDescriptor) :
  ctx w = Some Ctx2D →
  dirtyMetrics w = list_to_set ids →
  Forall (λ m, is_Some (metricState w !! metric m)) cat →
  ∃ states : list MetricRenderState,
    Forall2 (λ (m : MetricDescriptor) st, metricState w !! metric m = Some st) cat states
    ∧ ∀ from,
        imap (λ i m,
                if bool_decide (metric m ∈ dirtyMetrics w)
                then whenContext w (clearOps (computeCardRect (width w) (from + i)))
                       ++ cardEffects w (from + i) m
                else []) cat =
          imap (λ i (p : MetricDescriptor * MetricRenderState),
                  if bool_decide (metric p.1 ∈ ids)
                  then Draw <$> (clearOps (computeCardRect (width w) (from + i))
                                   ++ cardOps (computeCardRect (width w) (from + i)) p.2)
                  else []) (zip cat states).
Proof.
  intros Hctx Hdirty. induction 1 as [|m cat [st Hst] _ (states & Hall & Heq)].
  - exists []. split; [constructor|done].
  - exists (st :: states). split; [by constructor|].
    intros from. cbn [imap zip zip_with]. f_equal.
    + cbn [fst snd]. unfold cardEffects, whenContext. rewrite Hst, Hctx, Hdirty.
      rewrite (bool_decide_ext _ (metric m ∈ ids)) by apply elem_of_list_to_set.
      destruct (bool_decide _); [|done]. by rewrite fmap_app.
    + specialize (Heq (S from)). etrans; [|etrans; [exact Heq|]].
      * apply imap_ext. intros i x _. cbn. by rewrite Nat.add_succ_r.
      * apply imap_ext. intros i x _. cbn. by rewrite Nat.add_succ_r.
Qed.

(** Dirty-region redraw.  On an initialised engine, after a frame and
    then one batch, the next frame repaints the cards of the catalog
    metrics the batch has an update for, and no others: in catalog
    order, for each such metric it clears the card's rectangle widened
    by 2 on every side and draws the card from the metric's render
    state: clipped to the cell, the card fill, the accent bar, and the
    label, the value and the unit of the render state as text.  Updates
    for ids outside the catalog draw nothing.  The dirty set is empty
    afterwards. *)
Theorem only_updated_cards_are_repainted
        (w : Worker) (now1 now2 : number) (updates : list MetricRenderState) :
  Initialized w →
  let w1 := state_after (renderFrame now1) w in
  let w2 := state_after (onMessage (MetricsBatch updates)) w1 in
  (∃ states : list MetricRenderState,
      Forall2 (λ (m : MetricDescriptor) st, metricState w2 !! metric m = Some st)
              (metrics w) states
      ∧ effects_of (renderFrame now2) w2 =
          concat (imap (λ index (p : MetricDescriptor * MetricRenderState),
                          let r := computeCardRect (width w) index in
                          if bool_decide (metric p.1 ∈ updateIds updates)
                          then Draw <$>
                                 (ClearRect (x r - 2) (y r - 2) (cardWidth r + 4) (cardHeight r + 4)
                                  :: [ Save; BeginPath; Rect (x r) (y r) (cardWidth r) (cardHeight r); Clip;
                                       SetFillStyle cardColor; SetGlobalAlpha 0.92;
                                       FillRect (x r) (y r) (cardWidth r) (cardHeight r);
                                       SetGlobalAlpha 1;
                                       SetFillStyle accentColor;
                                       FillRect (x r) (y r) 4 (cardHeight r);
                                       SetFillStyle textColor; SetFont 18 "Segoe UI" "sans-serif";
                                       FillText (Str (label p.2)) (x r + 20) (y r + 30);
                                       SetFillStyle valueColor; SetFont 48 "Rajdhani" "sans-serif";
                                       FillText (NumStr (value p.2)) (x r + 20) (y r + cardHeight r / 2 + 10);
                                       SetFillStyle textColor; SetFont 20 "Segoe UI" "sans-serif";
                                       FillText (Str (unit p.2)) (x r + 20) (y r + cardHeight r - 28);
                                       Restore ])
                          else [])
                       (zip (metrics w) states))
            ++ [PostMessage (debugReport now2 w2); RequestAnimationFrame])
  ∧ (Forall (λ id, id ∉ metric <$> metrics w) (updateIds updates) →
     effects_of (renderFrame now2) w2 =
       [PostMessage (debugReport now2 w2); RequestAnimationFrame])
  ∧ dirtyMetrics (state_after (renderFrame now2) w2) = ∅.
Proof.
  intros ((cv & Hcv & H2d) & Hctx & Hstates) w1 w2.
  assert (ctx w2 = Some Ctx2D ∧ width w2 = width w ∧ metrics w2 = metrics w
          ∧ needsFullRedraw w2 = false
          ∧ dirtyMetrics w2 = list_to_set (updateIds updates)
          ∧ Forall (λ m, is_Some (metricState w2 !! metric m)) (metrics w))
    as (Hctx2 & Hwd & Hms & Hfull & Hdirty & Hst2).
  { subst w2 w1. unfold state_after.
    rewrite metricsBatch_run, foldl_applied, renderFrame_run, Hctx.
    destruct w as [? ? ? ? ? ? ? dirty full ? ? ? ? ? ?]. unfold painted. cbn in *.
    assert (∀ X : gset string, X = ∅ → X ∪ list_to_set (updateIds updates)
                                       = list_to_set (updateIds updates)) as Hempty
      by (intros X ->; apply (left_id_L ∅ (∪))).
    destruct full; cbn.
    - rewrite Hempty by done. repeat split; try done.
      eapply Forall_impl; [exact Hstates|]. intros m. apply mergedAll_is_Some.
    - destruct (size dirty) eqn:Hsize; cbn.
      + rewrite Hempty by (by apply size_empty_inv, leibniz_equiv in Hsize).
        repeat split; try done.
        eapply Forall_impl; [exact Hstates|]. intros m. apply mergedAll_is_Some.
      + rewrite Hempty by done. repeat split; try done.
        eapply Forall_impl; [exact Hstates|]. intros m. apply mergedAll_is_Some. }
  destruct (repaints_of_states w2 (updateIds updates) (metrics w) Hctx2 Hdirty Hst2)
    as (states & Hall & Hpaint).
  specialize (Hpaint 0%nat). cbn in Hpaint.
  assert (effects_of (renderFrame now2) w2 =
            partialRedrawEffects w2
              ++ [PostMessage (debugReport now2 w2); RequestAnimationFrame]) as Heff.
  { unfold effects_of. rewrite renderFrame_run, Hctx2. cbn [snd].
    by rewrite paintEffects_partial. }
  split; [|split].
  - exists states. split; [done|]. rewrite Heff. f_equal.
    unfold partialRedrawEffects. rewrite Hms, Hpaint, Hwd. done.
  - intros Hout. rewrite Heff. unfold partialRedrawEffects.
    rewrite concat_imap_nil; [done|]. intros i m Hin.
    destruct (bool_decide (metric m ∈ dirtyMetrics w2)) eqn:Hm; [|done].
    apply bool_decide_eq_true_1 in Hm. rewrite Hdirty in Hm.
    apply elem_of_list_to_set in Hm.
    rewrite Hms in Hin. rewrite Forall_forall in Hout.
    exfalso. apply (Hout _ Hm). apply list_elem_of_fmap_2.
    by eapply list_elem_of_lookup_2.
  - unfold state_after. rewrite renderFrame_run, Hctx2.
    destruct w2 as [? ? ? ? ? ? ? dirty full ? ? ? ? ? ?]. unfold painted. cbn in *.
    subst full. destruct (size dirty) eqn:Hsize; cbn; [|done].
    by apply size_empty_inv, leibniz_equiv in Hsize.
Qed.

Lemma only_updated_cards_are_repainted_witness :
  let ms := [mkDescriptor "speed" "Speed" "km/h"; mkDescriptor "rpm" "Engine RPM" "rpm"] in
  let w := state_after (onMessage (Init (mkCanvas 1280 720 true) ms 1280 720 1))
                       (initial (λ _, 10)) in
  let updates := [mkRenderState (mkDescriptor "rpm" "Engine RPM" "rpm") 3000 7;
                  mkRenderState (mkDescriptor "foo" "Foo" "") 1 8] in
  let w1 := state_after (renderFrame 16) w in
  let w2 := state_after (onMessage (MetricsBatch updates)) w1 in
  (∃ states : list MetricRenderState,
      Forall2 (λ (m : MetricDescriptor) st, metricState w2 !! metric m = Some st)
              (metrics w) states
      ∧ effects_of (renderFrame 33) w2 =
          concat (imap (λ index (p : MetricDescriptor * MetricRenderState),
                          if bool_decide (metric p.1 ∈ updateIds updates)
                          then Draw <$> (clearOps (computeCardRect (width w) index)
                                           ++ cardOps (computeCardRect (width w) index) p.2)
                          else [])
                       (zip (metrics w) states))
            ++ [PostMessage (debugReport 33 w2); RequestAnimationFrame])
  ∧ (Forall (λ id, id ∉ metric <$> metrics w) (updateIds updates) →
     effects_of (renderFrame 33) w2 =
       [PostMessage (debugReport 33 w2); RequestAnimationFrame])
  ∧ dirtyMetrics (state_after (renderFrame 33) w2) = ∅.
Proof.
  intros ms w updates.
  apply (only_updated_cards_are_repainted w 16 33 updates).
  split; [|split].
  - eexists. split; reflexivity.
  - reflexivity.
  - repeat constructor; vm_compute; eauto.
Defined.

(** *** Render states over time *)

Lemma firstWith_cons {A} (key : A → string) (id : string) (a : A) (l : list A) :
  firstWith key id (a :: l) = if decide (key a = id) then Some a else firstWith key id l.
Proof.
  unfold firstWith. rewrite filter_cons. by destruct (decide (key a = id)).
Qed.

Lemma mergedAll_lookup (updates : list MetricRenderState) (id : string) :
  ∀ states : gmap string MetricRenderState,
    mergedAll states updates !! id =
      match lastWith (λ u : MetricRenderState, metric u) id updates with
      | None => states !! id
      | Some u =>
          Some (mkRenderState (descriptorAfter states id updates (descriptor u))
                              (value u) (timestamp u))
      end.
Proof.
  induction updates as [|u updates IH]; intros states; [done|].
  cbn [mergedAll foldl].
  fold (mergedAll (<[metric u := merged states u]> states) updates).
  rewrite IH, lastWith_cons. unfold descriptorAfter. rewrite firstWith_cons.
  destruct (decide (metric u = id)) as [<-|Hne].
  - rewrite lookup_insert_eq. unfold merged.
    destruct (lastWith _ (metric u) updates) as [l|];
      by destruct (states !! metric u) as [st|]; [|destruct u].
  - by rewrite lookup_insert_ne.
Qed.

(** Last write wins within a batch.  After a batch the render state of
    an id the batch has no update for is as before.  For an id it has
    updates for, the state carries the value and timestamp of the last
    of them; its descriptor is the one the state had before, so label
    and unit of a metric that has a state never change with a batch; when
    there was no state the descriptor comes from the first of the
    updates. *)
Theorem batch_last_update_wins
        (w : Worker) (updates : list MetricRenderState) (id : string) :
  metricState (state_after (onMessage (MetricsBatch updates)) w) !! id =
    match lastWith (λ u : MetricRenderState, metric u) id updates with
    | None => metricState w !! id
    | Some u =>
        Some (mkRenderState (descriptorAfter (metricState w) id updates (descriptor u))
                            (value u) (timestamp u))
    end.
Proof.
  unfold state_after. rewrite metricsBatch_run, foldl_applied. destruct w. cbn.
  apply mergedAll_lookup.
Qed.

Lemma dispatch_keeps_keys (e : Event) (w : Worker) (id : string) :
  is_Some (metricState w !! id) → is_Some (metricState (state_after (dispatch e) w) !! id).
Proof.
  intros Hid. unfold state_after.
  destruct e as [[cv ms wd ht d|wd ht d|updates]|now]; cbn [dispatch].
  - rewrite init_run. destruct w, (supports2d cv); cbn in *; [|done].
    apply seeded_is_Some. by left.
  - cbn [onMessage]. rewrite resize_run.
    destruct w as [[cv|] ? ? ? ? ? ? ? ? ? ? ? ? ? ?]; cbn in *; [|done].
    by destruct (supports2d cv).
  - rewrite metricsBatch_run, foldl_applied. destruct w. cbn in *.
    by apply mergedAll_is_Some.
  - rewrite renderFrame_run.
    destruct w as [? [c|] ? ? ? ? ? dirty full ? ? ? ? ? ?]; cbn in *; [|done].
    unfold painted. cbn. by destruct full, (size dirty).
Qed.

Lemma dispatch_paintsOnly (e : Event) (w : Worker) :
  paintsOnly e →
  metricState (state_after (dispatch e) w) = metricState w
  ∧ latencySamples (state_after (dispatch e) w) = latencySamples w
  ∧ metrics (state_after (dispatch e) w) = metrics w.
Proof.
  intros He. unfold state_after.
  destruct e as [[cv ms wd ht d|wd ht d|updates]|now]; cbn [dispatch paintsOnly] in *;
    try done.
  - cbn [onMessage]. rewrite resize_run.
    destruct w as [[cv|] ? ? ? ? ? ? ? ? ? ? ? ? ? ?]; cbn in *; [|done].
    by destruct (supports2d cv).
  - rewrite renderFrame_run.
    destruct w as [? [c|] ? ? ? ? ? dirty full ? ? ? ? ? ?]; cbn in *; [|done].
    unfold painted. cbn. by destruct full, (size dirty).
Qed.

(** No event removes a render state: an id that has one keeps one over
    any sequence of events, [init] messages that fail included.  Resizes
    and frames change neither the render states, nor the latency window,
    nor the catalog. *)
Theorem render_states_are_never_removed :
  (∀ (events : list Event) (w : Worker) (id : string),
      is_Some (metricState w !! id) → is_Some (metricState (runEvents events w) !! id))
  ∧ (∀ (events : list Event) (w : Worker),
        Forall paintsOnly events →
        metricState (runEvents events w) = metricState w
        ∧ latencySamples (runEvents events w) = latencySamples w
        ∧ metrics (runEvents events w) = metrics w).
Proof.
  split.
  - induction events as [|e events IH]; intros w id Hid; [done|].
    cbn [runEvents foldl]. apply IH. by apply dispatch_keeps_keys.
  - induction events as [|e events IH]; intros w Hevents; [done|].
    apply Forall_cons in Hevents as [He Hevents].
    cbn [runEvents foldl].
    destruct (IH (state_after (dispatch e) w) Hevents) as (H1 & H2 & H3).
    destruct (dispatch_paintsOnly e w He) as (H4 & H5 & H6).
    fold (runEvents events (state_after (dispatch e) w)).
    repeat split; congruence.
Qed.

Lemma render_states_are_never_removed_witness :
  let w := state_after (applyUpdate (mkRenderState (mkDescriptor "foo" "Foo" "") 1 5))
                       (initial (λ _, 10)) in
  let events := [Message (Init (mkCanvas 300 150 false) [] 640 480 1);
                 AnimationFrame 16;
                 Message (Init (mkCanvas 300 150 true)
                               [mkDescriptor "speed" "Speed" "km/h"] 640 480 1)] in
  is_Some (metricState (runEvents events w) !! "foo").
Proof.
  intros w events.
  apply (proj1 render_states_are_never_removed events w "foo").
  vm_compute. eauto.
Defined.

(** *** The ends of the quantile scale *)

Lemma sorted_lookup_le (s : list number) :
  Sorted Qle s →
  ∀ (i j : nat) (a b : number), (i ≤ j)%nat → s !! i = Some a → s !! j = Some b → a <= b.
Proof.
  intros Hs.
  assert (Transitive Qle) as Htrans by exact Qle_trans.
  apply Sorted_StronglySorted in Hs; [|done].
  induction Hs as [|x l _ IH Hx]; intros i j a b Hij Ha Hb; [done|].
  destruct i as [|i], j as [|j]; cbn in *; try lia.
  - injection Ha as <-. injection Hb as <-. apply Qle_refl.
  - injection Ha as <-. rewrite Forall_forall in Hx. apply Hx.
    by eapply list_elem_of_lookup_2.
  - apply (IH i j); [lia|done..].
Qed.

(** What [quantile] computes on a window that is not empty, for [q]
    from 0 to 1. *)
Lemma quantile_value (window : list number) (q : number) :
  window ≠ [] → 0 <= q → q <= 1 →
  let index := (of_nat (length window) - 1) * q in
  ∃ lo hi : number,
    sort window !! Z.to_nat (Qfloor index) = Some lo
    ∧ sort window !! Z.to_nat (Qceiling index) = Some hi
    ∧ lo <= hi
    ∧ quantile window q =
        if (Qfloor index =? Qceiling index)%Z then Num lo
        else Num (lo * (1 - (index - inject_Z (Qfloor index)))
                  + hi * (index - inject_Z (Qfloor index))).
Proof.
  intros Hne Hq0 Hq1.
  destruct (sort_ascending window) as [Hperm Hsorted].
  assert (length (sort window) = length window) as Hlen by (by rewrite Hperm).
  assert (0 < length window)%nat as Hpos by (destruct window; [done|cbn; lia]).
  destruct (index_in_range (length window) q Hpos Hq0 Hq1) as (Hf0 & Hfc & Hcn).
  intros index. fold index in Hf0, Hfc, Hcn.
  destruct (lookup_lt_is_Some_2 (sort window) (Z.to_nat (Qfloor index))) as [lo Hlo];
    [lia|].
  destruct (lookup_lt_is_Some_2 (sort window) (Z.to_nat (Qceiling index))) as [hi Hhi];
    [lia|].
  exists lo, hi. split; [done|]. split; [done|]. split.
  { apply (sorted_lookup_le _ Hsorted (Z.to_nat (Qfloor index))
             (Z.to_nat (Qceiling index))); [lia|done..]. }
  unfold quantile. destruct window; [done|]. cbn [length Nat.eqb].
  rewrite Hlen. fold index. unfold Math_floor, Math_ceil.
  by rewrite (at_index_lookup _ _ lo), (at_index_lookup _ _ hi) by (done || lia).
Qed.

Lemma floor_ceiling_of_integer (a : number) (k : Z) :
  a == inject_Z k → Qfloor a = k ∧ Qceiling a = k.
Proof. intros ->. by rewrite Qfloor_Z, Qceiling_Z. Qed.

(** The quantile at 0 is the smallest sample of the window and the
    quantile at 1 the largest; on a window of one sample every quantile
    is that sample, whatever [q] is. *)
Theorem quantile_endpoints :
  (∀ window : list number,
      window ≠ [] →
      ∃ least greatest : number,
        quantile window 0 = Num least ∧ quantile window 1 = Num greatest
        ∧ least ∈ window ∧ greatest ∈ window
        ∧ ∀ s, s ∈ window → least <= s ∧ s <= greatest)
  ∧ (∀ sample q : number, quantile [sample] q = Num sample).
Proof.
  split.
  - intros window Hne.
    destruct (sort_ascending window) as [Hperm Hsorted].
    assert (length (sort window) = length window) as Hlen by (by rewrite Hperm).
    assert (0 < length window)%nat as Hpos by (destruct window; [done|cbn; lia]).
    destruct (quantile_value window 0 Hne) as (lo & hi0 & Hlo & Hhi0 & Hle0 & Hq0);
      [lra..|].
    destruct (quantile_value window 1 Hne) as (lo1 & hi & Hlo1 & Hhi & Hle1 & Hq1);
      [lra..|].
    destruct (floor_ceiling_of_integer ((of_nat (length window) - 1) * 0) 0) as [Hf0 Hc0];
      [ring|].
    destruct (floor_ceiling_of_integer ((of_nat (length window) - 1) * 1)
                (Z.of_nat (length window) - 1)) as [Hf1 Hc1].
    { unfold of_nat, Z.sub. rewrite inject_Z_plus, inject_Z_opp. ring. }
    rewrite Hf0, Hc0 in *. rewrite Hf1, Hc1 in *.
    rewrite Z.eqb_refl in Hq0, Hq1.
    exists lo, lo1. split; [done|]. split; [done|].
    split; [rewrite <- Hperm; by eapply list_elem_of_lookup_2|].
    split; [rewrite <- Hperm; by eapply list_elem_of_lookup_2|].
    intros s Hs. rewrite <- Hperm in Hs. apply list_elem_of_lookup_1 in Hs as [i Hi].
    pose proof (lookup_lt_Some _ _ _ Hi) as Hlt.
    split.
    + apply (sorted_lookup_le _ Hsorted (Z.to_nat 0) i); [lia|done..].
    + apply (sorted_lookup_le _ Hsorted i (Z.to_nat (Z.of_nat (length window) - 1)));
        [unfold number in *; lia|done..].
  - intros sample q. unfold quantile. cbn [length Nat.eqb].
    change (sort [sample]) with [sample].
    destruct (floor_ceiling_of_integer ((of_nat (length [sample]) - 1) * q) 0) as [Hf Hc].
    { change (of_nat (length [sample]) - 1) with (1 - 1). unfold number in *. ring. }
    unfold Math_floor, Math_ceil. by rewrite Hf, Hc.
Qed.

Lemma quantile_endpoints_witness :
  ∃ least greatest : number,
    quantile [42; 17; 99] 0 = Num least ∧ quantile [42; 17; 99] 1 = Num greatest
    ∧ least ∈ [42; 17; 99] ∧ greatest ∈ [42; 17; 99]
    ∧ ∀ s, s ∈ [42; 17; 99] → least <= s ∧ s <= greatest.
Proof.
  apply (proj1 quantile_endpoints [42; 17; 99]). discriminate.
Defined.

(** *** The cells of the grid *)

Lemma of_nat_lt (a b : nat) : (a < b)%nat → of_nat a + 1 <= of_nat b.
Proof.
  intros H. unfold of_nat. change 1 with (inject_Z 1).
  rewrite <- inject_Z_plus, <- Zle_Qle. lia.
Qed.

Lemma rect_position (width : number) (index : nat) :
  let r := computeCardRect width index in
  x r == 16 + of_nat (column index) * (cardWidth r + 16)
  ∧ y r == 16 + of_nat (row index) * 136
  ∧ cardHeight r = 120
  ∧ 4 * cardWidth r == width - 80.
Proof.
  intros r. subst r. unfold computeCardRect. cbn [x y cardWidth cardHeight].
  rewrite xIndex_column, yIndex_row. unfold of_nat.
  repeat split; try reflexivity. unfold number in *. field.
Qed.

Lemma column_step (c d : nat) (cw : Q) :
  0 <= cw → (c < d)%nat → of_nat c * (cw + 16) + cw + 16 <= of_nat d * (cw + 16).
Proof.
  intros Hcw Hcd. pose proof (of_nat_lt c d Hcd) as H. unfold number in *.
  assert (0 <= (of_nat d - (of_nat c + 1)) * (cw + 16)) as Hgap
    by (apply Qmult_le_0_compat; lra).
  assert (of_nat d * (cw + 16)
          == of_nat c * (cw + 16) + cw + 16 + (of_nat d - (of_nat c + 1)) * (cw + 16)) as E
    by ring.
  rewrite E. lra.
Qed.

Lemma column_row_differ (i j : nat) :
  i ≠ j → column i ≠ column j ∨ row i ≠ row j.
Proof.
  intros Hne. unfold column, row.
  destruct (decide (i mod 4 = j mod 4)%nat) as [Hc|Hc]; [|by left].
  right. intros Hr. apply Hne.
  rewrite (Nat.div_mod i 4), (Nat.div_mod j 4) by lia. by rewrite Hc, Hr.
Qed.

(** Cards keep clear of each other.  For a width of at least 80 every
    card starts at least one gap from the left edge and ends at least one
    gap before the right edge; the cards of two different indices share
    no point; and the rectangle cleared for one card before it is
    repainted, the card widened by 2 on every side, stays clear of every
    other card. *)
Theorem cards_do_not_overlap (width : number) (i j : nat) :
  80 <= width → i ≠ j →
  let a := computeCardRect width i in
  let b := computeCardRect width j in
  16 <= x a ∧ x a + cardWidth a + 16 <= width
  ∧ apart a b
  ∧ apart (clearArea a) b
  ∧ clearOps a = [ClearRect (x (clearArea a)) (y (clearArea a))
                            (cardWidth (clearArea a)) (cardHeight (clearArea a))].
Proof.
  intros Hwidth Hne a b.
  destruct (rect_position width i) as (Hxa & Hya & Hha & Hwa).
  destruct (rect_position width j) as (Hxb & Hyb & Hhb & Hwb).
  fold a in Hxa, Hya, Hha, Hwa. fold b in Hxb, Hyb, Hhb, Hwb.
  assert (cardWidth b = cardWidth a) as Hsame by reflexivity.
  split; [|split; [|split; [|split; [|done]]]];
    unfold apart, clearArea; cbn [x y cardWidth cardHeight];
    rewrite ?Hsame, ?Hha, ?Hhb; rewrite Hsame in Hxb; clear Hsame Hwb;
    set (cw := cardWidth a) in *;
    set (xa := x a) in *; set (xb := x b) in *;
    set (ya := y a) in *; set (yb := y b) in *;
    clearbody a b cw xa xb ya yb; unfold number in *;
    assert (0 <= cw) as Hcw by lra.
  - assert (0 <= of_nat (column i) * (cw + 16)) as Hleft.
    { apply Qmult_le_0_compat; [|lra]. unfold of_nat. rewrite <- (Zle_Qle 0). lia. }
    set (pa := of_nat (column i) * (cw + 16)) in *. clearbody pa. lra.
  - assert (column i < 4)%nat as Hcol by (unfold column; apply Nat.mod_upper_bound; lia).
    pose proof (of_nat_lt _ _ Hcol) as H. change (of_nat 4) with 4 in H.
    assert (0 <= (4 - (of_nat (column i) + 1)) * (cw + 16)) as Hgap
      by (apply Qmult_le_0_compat; lra).
    assert ((4 - (of_nat (column i) + 1)) * (cw + 16)
            == 4 * cw + 64 - (of_nat (column i) * (cw + 16) + cw + 16)) as E by ring.
    rewrite E in Hgap.
    set (pa := of_nat (column i) * (cw + 16)) in *. clearbody pa. lra.
  - destruct (column_row_differ i j Hne) as [Hc|Hr].
    + destruct (Nat.lt_total (column i) (column j)) as [Hlt|[Heq|Hgt]]; [|done|].
      * pose proof (column_step (column i) (column j) cw Hcw Hlt).
        set (pa := of_nat (column i) * (cw + 16)) in *.
        set (pb := of_nat (column j) * (cw + 16)) in *. clearbody pa pb. left. lra.
      * pose proof (column_step (column j) (column i) cw Hcw Hgt).
        set (pa := of_nat (column i) * (cw + 16)) in *.
        set (pb := of_nat (column j) * (cw + 16)) in *. clearbody pa pb. right. left. lra.
    + destruct (Nat.lt_total (row i) (row j)) as [Hlt|[Heq|Hgt]]; [|done|].
      * pose proof (of_nat_lt _ _ Hlt). right. right. left. lra.
      * pose proof (of_nat_lt _ _ Hgt). right. right. right. lra.
  - destruct (column_row_differ i j Hne) as [Hc|Hr].
    + destruct (Nat.lt_total (column i) (column j)) as [Hlt|[Heq|Hgt]]; [|done|].
      * pose proof (column_step (column i) (column j) cw Hcw Hlt).
        set (pa := of_nat (column i) * (cw + 16)) in *.
        set (pb := of_nat (column j) * (cw + 16)) in *. clearbody pa pb. left. lra.
      * pose proof (column_step (column j) (column i) cw Hcw Hgt).
        set (pa := of_nat (column i) * (cw + 16)) in *.
        set (pb := of_nat (column j) * (cw + 16)) in *. clearbody pa pb. right. left. lra.
    + destruct (Nat.lt_total (row i) (row j)) as [Hlt|[Heq|Hgt]]; [|done|].
      * pose proof (of_nat_lt _ _ Hlt). right. right. left. lra.
      * pose proof (of_nat_lt _ _ Hgt). right. right. right. lra.
Qed.

Lemma cards_do_not_overlap_witness :
  let a := computeCardRect 1280 5 in
  let b := computeCardRect 1280 6 in
  16 <= x a ∧ x a + cardWidth a + 16 <= 1280
  ∧ apart a b
  ∧ apart (clearArea a) b
  ∧ clearOps a = [ClearRect (x (clearArea a)) (y (clearArea a))
                            (cardWidth (clearArea a)) (cardHeight (clearArea a))].
Proof.
  apply (cards_do_not_overlap 1280 5 6).
  - by vm_compute.
  - discriminate.
Defined.

End RenderWorkerProofs.

(** ** The frame scheduler *)

Module HmiDashboardProofs.

Import MetricsStore HmiDashboard.

Lemma delivered_app (a b : list RenderWorker.WorkerMessage) :
  delivered (a ++ b) = delivered a ++ delivered b.
Proof.
  induction a as [|[| |updates] a IH]; cbn [delivered app]; [done..|].
  by rewrite IH, app_assoc.
Qed.

Lemma loop_store (d : Dashboard) :
  metricsStore (loop d).1 = (dequeueBatch (metricsStore d)).2.
Proof.
  unfold loop. destruct (dequeueBatch (metricsStore d)) as [updates store'].
  by destruct (negb _ && _).
Qed.

Lemma loop_posted (d : Dashboard) :
  delivered (loop d).2 `sublist_of` asRenderState <$> queue (metricsStore d).
Proof.
  unfold loop.
  pose proof (MetricsStoreProofs.dequeueBatch_batch (metricsStore d)) as Hb.
  destruct (dequeueBatch (metricsStore d)) as [updates store']. cbn [fst] in Hb.
  destruct (negb _ && _); cbn [snd delivered].
  - by rewrite app_nil_r, Hb.
  - apply sublist_nil_l.
Qed.

(** Whatever reaches the render engine was pending or arrived since, and
    keeps its order. *)
Lemma delivered_from_pending (events : list Event) :
  ∀ d, delivered (posted events d)
         `sublist_of` asRenderState <$> (queue (metricsStore d) ++ measured events).
Proof.
  induction events as [|e events IH]; intros d; [apply sublist_nil_l|].
  cbn [posted]. destruct e as [p| |canvas dpr|dpr]; cbn [handle measured].
  - cbn [app]. etrans; [apply IH|]. cbn [set_store metricsStore addMeasurement queue].
    by rewrite <- app_assoc.
  - pose proof (loop_posted d) as Hnow. pose proof (loop_store d) as Hstore.
    destruct (loop d) as [d' out]. cbn [fst snd] in *.
    rewrite delivered_app, fmap_app. apply sublist_app; [done|].
    etrans; [apply IH|]. by rewrite Hstore, MetricsStoreProofs.dequeueBatch_queue.
  - cbn [setupWorker app delivered]. etrans; [apply IH|]. done.
  - unfold handleResize. destruct (workerRef d), (canvasRef d); cbn [app delivered];
      (etrans; [apply IH|]); done.
Qed.

(** C10.  Every run of the frame loop empties the queue.  When the
    queue holds payloads and no worker is referenced, the run drains
    them, posts nothing and leaves the queue empty; whatever is
    delivered to the render engine afterwards is taken, in order, from
    the payloads that arrive afterwards, so the drained payloads are
    lost. *)
Theorem loop_drops_batch_without_worker :
  (∀ d : Dashboard, queue (metricsStore (loop d).1) = [])
  ∧ (∀ d : Dashboard,
        workerRef d = None →
        queue (metricsStore d) ≠ [] →
        (dequeueBatch (metricsStore d)).1 = queue (metricsStore d)
        ∧ (loop d).2 = []
        ∧ queue (metricsStore (loop d).1) = []
        ∧ ∀ events : list Event,
            delivered (posted events (loop d).1)
              `sublist_of` asRenderState <$> measured events).
Proof.
  assert (∀ d : Dashboard, queue (metricsStore (loop d).1) = []) as Hdrain.
  { intros d. by rewrite loop_store, MetricsStoreProofs.dequeueBatch_queue. }
  split; [done|]. intros d Hworker Hpending.
  split; [apply MetricsStoreProofs.dequeueBatch_batch|].
  split; [|split; [done|]].
  - unfold loop. destruct (dequeueBatch (metricsStore d)) as [updates store'].
    rewrite Hworker. destruct (negb _); by cbn.
  - intros events. etrans; [apply delivered_from_pending|]. by rewrite Hdrain.
Qed.

Lemma loop_drops_batch_without_worker_witness :
  let p := mkPayload "speed" "Speed" "km/h" 87 1000 in
  let d := mkDashboard None None (addMeasurement p MetricsStore.empty) in
  (dequeueBatch (metricsStore d)).1 = queue (metricsStore d)
  ∧ (loop d).2 = []
  ∧ queue (metricsStore (loop d).1) = []
  ∧ ∀ events : list Event,
      delivered (posted events (loop d).1)
        `sublist_of` asRenderState <$> measured events.
Proof.
  intros p d.
  apply (proj2 loop_drops_batch_without_worker d); [reflexivity|discriminate].
Defined.

(** A payload that arrives before the worker is set up is drained by the
    next tick and never sent; one that arrives afterwards is. *)
Example payload_lost_before_setup (a b : MetricPayload) (canvas : HTMLCanvasElement) :
  delivered (posted [Measurement a; Tick; SetupWorker canvas 1; Measurement b; Tick]
                    (mkDashboard (Some canvas) None MetricsStore.empty))
  = [asRenderState b].
Proof. reflexivity. Qed.

End HmiDashboardProofs.

(** ** The metric buffer and the frame scheduler, continued *)

Module BufferProofs.

Import MetricsStore MetricsStoreSpec.



Lemma runOps_buffer (ops : list Op) :
  ∀ s, (runOps ops s).1 = (run (bufferCalls ops) s).1
       ∧ queue (runOps ops s).2 = queue (run (bufferCalls ops) s).2
       ∧ metrics (runOps ops s).2 = metrics (run (bufferCalls ops) s).2.
Proof.
  assert (∀ calls s dbg,
            (run calls (mkStore (metrics s) (queue s) dbg)).1 = (run calls s).1
            ∧ queue (run calls (mkStore (metrics s) (queue s) dbg)).2 = queue (run calls s).2
            ∧ metrics (run calls (mkStore (metrics s) (queue s) dbg)).2
              = metrics (run calls s).2) as Hdbg.
  { induction calls as [|[p|] calls IH]; intros s dbg; cbn [run].
    - done.
    - apply (IH (addMeasurement p s) dbg).
    - unfold dequeueBatch, splice0. cbn [queue metrics debug].
      destruct (length (queue s) =? 0)%nat.
      + destruct (IH s dbg) as (H1 & H2 & H3).
        destruct (run calls (mkStore (metrics s) (queue s) dbg)) as [b1 s1].
        destruct s as [m q dbg0]. cbn [queue metrics] in *.
        destruct (run calls (mkStore m q dbg0)) as [b2 s2]. cbn [fst snd] in *.
        by subst.
      + destruct (IH (mkStore (metrics s) (drop (length (queue s)) (queue s)) (debug s)) dbg)
          as (H1 & H2 & H3). cbn [queue metrics] in *.
        destruct (run calls (mkStore (metrics s) (drop (length (queue s)) (queue s)) dbg))
          as [b1 s1].
        destruct (run calls (mkStore (metrics s) (drop (length (queue s)) (queue s)) (debug s)))
          as [b2 s2]. cbn [fst snd] in *. by subst. }
  induction ops as [|[[p|]|next] ops IH]; intros s; cbn [runOps bufferCalls run].
  - done.
  - apply IH.
  - destruct (dequeueBatch s) as [batch s']. specialize (IH s').
    destruct (runOps ops s') as [b1 s1]. destruct (run (bufferCalls ops) s') as [b2 s2].
    cbn [fst snd] in *. destruct IH as (-> & -> & ->). done.
  - destruct (IH (updateDebug next s)) as (H1 & H2 & H3). rewrite H1, H2, H3.
    apply (Hdbg (bufferCalls ops) s).
Qed.

Lemma runOps_debug (ops : list Op) :
  ∀ s, fps (debug (runOps ops s).2) = lastGiven p_fps (fps (debug s)) (debugUpdates ops)
       ∧ renderMs (debug (runOps ops s).2)
         = lastGiven p_renderMs (renderMs (debug s)) (debugUpdates ops)
       ∧ latencyP50 (debug (runOps ops s).2)
         = lastGiven p_latencyP50 (latencyP50 (debug s)) (debugUpdates ops)
       ∧ latencyP95 (debug (runOps ops s).2)
         = lastGiven p_latencyP95 (latencyP95 (debug s)) (debugUpdates ops).
Proof.
  induction ops as [|[[p|]|next] ops IH]; intros s; cbn [runOps debugUpdates].
  - done.
  - apply (IH (addMeasurement p s)).
  - assert (debug (dequeueBatch s).2 = debug s) as Hd
      by (unfold dequeueBatch, splice0; by destruct (length (queue s) =? 0)%nat).
    destruct (dequeueBatch s) as [batch s']. specialize (IH s').
    destruct (runOps ops s') as [b1 s1]. cbn [fst snd] in *. by rewrite <- Hd.
  - apply (IH (updateDebug next s)).
Qed.

(** The debug statistics and the buffer do not touch each other.  With
    [updateDebug] calls interleaved in any way, the drains return what
    they return without them and the queue and the map end up the same;
    and each of the four statistics ends up as the last value given for
    it, or as it was when no update gave one, whatever was added or
    drained in between. *)
Theorem debug_updates_leave_buffer_alone (ops : list Op) (s : Store) :
  (runOps ops s).1 = (run (bufferCalls ops) s).1
  ∧ queue (runOps ops s).2 = queue (run (bufferCalls ops) s).2
  ∧ metrics (runOps ops s).2 = metrics (run (bufferCalls ops) s).2
  ∧ fps (debug (runOps ops s).2) = lastGiven p_fps (fps (debug s)) (debugUpdates ops)
  ∧ renderMs (debug (runOps ops s).2)
    = lastGiven p_renderMs (renderMs (debug s)) (debugUpdates ops)
  ∧ latencyP50 (debug (runOps ops s).2)
    = lastGiven p_latencyP50 (latencyP50 (debug s)) (debugUpdates ops)
  ∧ latencyP95 (debug (runOps ops s).2)
    = lastGiven p_latencyP95 (latencyP95 (debug s)) (debugUpdates ops).
Proof.
  destruct (runOps_buffer ops s) as (H1 & H2 & H3).
  destruct (runOps_debug ops s) as (H4 & H5 & H6 & H7).
  done.
Qed.

End BufferProofs.

Module SchedulerProofs.

Import MetricsStore HmiDashboard HmiDashboardSpec.

Lemma handle_keeps_worker (e : Event) (d : Dashboard) :
  is_Some (workerRef d) → is_Some (workerRef (handle e d).1).
Proof.
  intros Hw. destruct e as [p| |canvas dpr|dpr]; cbn [handle fst set_store workerRef].
  - done.
  - unfold loop. destruct (dequeueBatch (metricsStore d)) as [updates store'].
    by destruct (negb _ && _).
  - by eexists.
  - assert ((handleResize dpr d).1 = d) as ->; [|done].
    unfold handleResize. by destruct (workerRef d), (canvasRef d).
Qed.

Lemma loop_with_worker (d : Dashboard) :
  is_Some (workerRef d) →
  delivered (loop d).2 = asRenderState <$> queue (metricsStore d).
Proof.
  intros Hw. unfold loop.
  pose proof (MetricsStoreProofs.dequeueBatch_batch (metricsStore d)) as Hb.
  destruct (dequeueBatch (metricsStore d)) as [updates store']. cbn [fst] in Hb. subst.
  rewrite (bool_decide_eq_true_2 _ Hw), andb_true_r.
  destruct (queue (metricsStore d)) as [|p q]; cbn; [done|].
  by rewrite app_nil_r.
Qed.

(** Once a worker is referenced no payload is lost and none is sent
    twice: over any sequence of events, the updates delivered to the
    render engine, followed by the payloads still queued, are the
    payloads that were queued at the start followed by those that
    arrived, in arrival order.  The reference, once set, stays set. *)
Theorem nothing_lost_once_worker_is_set (events : list Event) :
  ∀ d : Dashboard,
    is_Some (workerRef d) →
    delivered (posted events d) ++ (asRenderState <$> queue (metricsStore (final events d)))
    = asRenderState <$> (queue (metricsStore d) ++ measured events)
    ∧ is_Some (workerRef (final events d)).
Proof.
  induction events as [|e events IH]; intros d Hw.
  - cbn. by rewrite app_nil_r.
  - pose proof (handle_keeps_worker e d Hw) as Hw'.
    destruct (IH (handle e d).1 Hw') as [Hacc Hfin].
    cbn [posted final measured]. split; [|done].
    destruct e as [p| |canvas dpr|dpr]; cbn [handle fst snd] in *.
    + cbn [app]. rewrite Hacc. cbn [set_store metricsStore addMeasurement queue].
      by rewrite <- app_assoc.
    + pose proof (loop_with_worker d Hw) as Hnow.
      pose proof (HmiDashboardProofs.loop_store d) as Hstore.
      destruct (loop d) as [d' out]. cbn [fst snd] in *.
      rewrite HmiDashboardProofs.delivered_app, <- app_assoc, Hacc, Hnow, Hstore.
      rewrite MetricsStoreProofs.dequeueBatch_queue. cbn [app]. by rewrite fmap_app.
    + cbn [setupWorker fst snd app delivered] in *. exact Hacc.
    + unfold handleResize in *. destruct (workerRef d), (canvasRef d);
        cbn [fst snd app delivered] in *; exact Hacc.
Qed.

Lemma nothing_lost_once_worker_is_set_witness :
  let a := mkPayload "speed" "Speed" "km/h" 87 1000 in
  let b := mkPayload "rpm" "Engine RPM" "rpm" 3000 1001 in
  let d := mkDashboard None (Some TheWorker) (addMeasurement a MetricsStore.empty) in
  let events := [Tick; Measurement b; WindowResize 2; Measurement a] in
  delivered (posted events d) ++ (asRenderState <$> queue (metricsStore (final events d)))
  = asRenderState <$> (queue (metricsStore d) ++ measured events)
  ∧ is_Some (workerRef (final events d)).
Proof.
  intros a b d events. apply (nothing_lost_once_worker_is_set events d). by eexists.
Defined.

Lemma handle_carriesUpdates (e : Event) (d : Dashboard) :
  Forall carriesUpdates (handle e d).2 ∧ (length (handle e d).2 ≤ 1)%nat.
Proof.
  destruct e as [p| |canvas dpr|dpr]; cbn [handle snd].
  - split; [constructor|cbn; lia].
  - unfold loop.
    destruct (dequeueBatch (metricsStore d)) as [updates store'].
    destruct updates as [|u updates]; cbn.
    + split; [constructor|lia].
    + destruct (bool_decide _); cbn; (split; [|lia]); repeat constructor. done.
  - cbn. split; [repeat constructor|lia].
  - unfold handleResize. destruct (workerRef d), (canvasRef d); cbn;
      (split; [repeat constructor|lia]).
Qed.

(** The scheduler never posts a batch without updates, whatever the
    events and whether or not a worker is referenced; and an event posts
    at most one message, so a tick posts the whole backlog as one
    batch. *)
Theorem no_empty_batch_is_posted :
  (∀ (events : list Event) (d : Dashboard), Forall carriesUpdates (posted events d))
  ∧ (∀ (e : Event) (d : Dashboard), (length (handle e d).2 ≤ 1)%nat).
Proof.
  split; [|intros e d; apply handle_carriesUpdates].
  induction events as [|e events IH]; intros d; [constructor|].
  cbn [posted]. destruct (handle_carriesUpdates e d) as [He _].
  destruct (handle e d) as [d' out]. apply Forall_app. split; [done|apply IH].
Qed.

Lemma lastWith_elem {A} (key : A → string) (id : string) (l : list A) :
  id ∈ key <$> l →
  ∃ a, RenderWorkerSpec.lastWith key id l = Some a ∧ a ∈ l ∧ key a = id.
Proof.
  induction l as [|b l IH]; intros Hid; [by apply elem_of_nil in Hid|].
  rewrite RenderWorkerProofs.lastWith_cons.
  destruct (decide (id ∈ key <$> l)) as [Hin|Hnin].
  - destruct (IH Hin) as (a & Ha & Hal & Hk). rewrite Ha.
    exists a. split; [by destruct (decide (key b = id))|]. split; [by right|done].
  - rewrite (RenderWorkerProofs.lastWith_None key id l Hnin).
    cbn in Hid. apply elem_of_cons in Hid as [->|Hid]; [|done].
    exists b. rewrite decide_True by done. split; [done|]. split; [by left|done].
Qed.

(** From the broker to the card.  On a fresh dashboard and a fresh
    worker, when the worker is set up with a surface that yields a 2D
    context and then a payload for a metric of the catalog arrives and
    the frame loop ticks, the messages posted leave the worker
    initialised with the dashboard's catalog, and the render state of
    the payload's metric carries the payload's value and timestamp with
    the label and unit of the catalog, not those of the payload; one
    latency sample is recorded and the metric is dirty. *)
Theorem payload_reaches_render_state
        (canvas : HTMLCanvasElement) (devicePixelRatio : number)
        (p : MetricPayload) (clk : nat → number) :
  offscreen2d canvas = true →
  metric p ∈ RenderWorker.metric <$> METRIC_DESCRIPTORS →
  let d := mkDashboard (Some canvas) None MetricsStore.empty in
  let msgs := posted [SetupWorker canvas devicePixelRatio; Measurement p; Tick] d in
  let w := received msgs (RenderWorker.initial clk) in
  RenderWorkerSpec.Initialized w
  ∧ RenderWorker.metrics w = METRIC_DESCRIPTORS
  ∧ (∃ m : RenderWorker.MetricDescriptor,
        m ∈ METRIC_DESCRIPTORS ∧ RenderWorker.metric m = metric p
        ∧ RenderWorker.metricState w !! metric p
          = Some (RenderWorker.mkRenderState m (value p) (timestamp p)))
  ∧ RenderWorker.latencySamples w = [clk 1%nat - timestamp p]
  ∧ metric p ∈ RenderWorker.dirtyMetrics w.
Proof.
  intros Hcanvas Hid d msgs w.
  destruct (lastWith_elem RenderWorker.metric (metric p) METRIC_DESCRIPTORS Hid)
    as (m & Hlast & Hm & Hkey).
  assert (msgs = [RenderWorker.Init
                    (RenderWorker.mkCanvas (width canvas) (height canvas) true)
                    METRIC_DESCRIPTORS
                    (or_else (clientWidth canvas) (width canvas))
                    (or_else (clientHeight canvas) (height canvas))
                    (or_else devicePixelRatio 1);
                  RenderWorker.MetricsBatch [asRenderState p]]) as Hmsgs.
  { subst msgs d. cbn. by rewrite Hcanvas. }
  subst w. rewrite Hmsgs. clear Hmsgs msgs d Hid.
  set (cat := METRIC_DESCRIPTORS) in *. clearbody cat.
  unfold received. cbn [fmap list_fmap].
  cbn [RenderWorker.runEvents foldl RenderWorker.dispatch].
  set (w1 := RenderWorker.state_after (RenderWorker.onMessage _) (RenderWorker.initial clk)).
  assert (RenderWorkerSpec.Initialized w1) as Hinit
    by (by apply RenderWorkerProofs.init_Initialized).
  assert (RenderWorker.metrics w1 = cat
          ∧ RenderWorker.latencySamples w1 = []
          ∧ RenderWorker.clock w1 = clk ∧ RenderWorker.clockReads w1 = 1%nat
          ∧ RenderWorker.metricState w1 !! metric p
            = Some (RenderWorker.mkRenderState m 0 0)) as (Hms & Hsamples & Hclk & Hreads & Hst).
  { subst w1. unfold RenderWorker.state_after. rewrite RenderWorkerProofs.init_run.
    cbn. repeat (split; [done|]).
    rewrite RenderWorkerProofs.seeded_lookup, Hlast. done. }
  split.
  { apply (RenderWorkerProofs.dispatch_Initialized
             (RenderWorker.Message (RenderWorker.MetricsBatch [asRenderState p]))); done. }
  unfold RenderWorker.state_after at 1 2 3 4.
  rewrite RenderWorkerProofs.metricsBatch_run. cbn [foldl fst snd].
  unfold RenderWorkerSpec.applied.
  destruct w1 as [? ? ? ? ? ? st dirty ? ? ? ? samples ? ?]. cbn in *. subst.
  split; [done|]. split.
  - exists m. split; [done|]. split; [done|].
    rewrite lookup_insert_eq. unfold RenderWorkerSpec.merged. cbn. by rewrite Hst.
  - split; [done|]. apply elem_of_union_r. by apply elem_of_singleton.
Qed.

Lemma payload_reaches_render_state_witness :
  let canvas := mkElement 0 0 1280 720 true in
  let p := mkPayload "rpm" "Revs" "1/min" 3000 1000 in
  let d := mkDashboard (Some canvas) None MetricsStore.empty in
  let msgs := posted [SetupWorker canvas 2; Measurement p; Tick] d in
  let w := received msgs (RenderWorker.initial (λ _, 1042)) in
  RenderWorkerSpec.Initialized w
  ∧ RenderWorker.metrics w = METRIC_DESCRIPTORS
  ∧ (∃ m : RenderWorker.MetricDescriptor,
        m ∈ METRIC_DESCRIPTORS ∧ RenderWorker.metric m = metric p
        ∧ RenderWorker.metricState w !! metric p
          = Some (RenderWorker.mkRenderState m (value p) (timestamp p)))
  ∧ RenderWorker.latencySamples w = [(λ _ : nat, 1042) 1%nat - timestamp p]
  ∧ metric p ∈ RenderWorker.dirtyMetrics w.
Proof.
  intros canvas p.
  apply (payload_reaches_render_state canvas 2 p (λ _, 1042)).
  - reflexivity.
  - apply (bool_decide_unpack _). by vm_compute.
Defined.

End SchedulerProofs.

(** ** The simulator *)

Module SimulatorProofs.

Import Simulator.

#[local] Existing Instances RenderWorker.Qle_dec RenderWorker.Qlt_dec.

Lemma clamp_cases (v lo hi : number) :
  clamp v lo hi =
    if decide (v <= lo)
    then (if decide (lo <= hi) then lo else hi)
    else (if decide (v <= hi) then v else hi).
Proof.
  unfold clamp, Math_min, Math_max. by destruct (decide (v <= lo)).
Qed.

Lemma clamp_bounds (v lo hi : number) :
  lo <= hi → lo <= clamp v lo hi ∧ clamp v lo hi <= hi.
Proof.
  intros H. unfold number in *. rewrite clamp_cases.
  repeat (destruct (decide _)); split; lra.
Qed.

(** [clamp] keeps a value inside a range: when [min <= max] the result
    lies from [min] to [max], a value already in the range is returned
    as it is, and clamping twice is clamping once.  When the bounds are
    the wrong way round the result is [max], whatever the value. *)
Theorem clamp_keeps_within_range (v lo hi : number) :
  (lo <= hi → lo <= clamp v lo hi ∧ clamp v lo hi <= hi)
  ∧ (lo <= v → v <= hi → clamp v lo hi == v)
  ∧ (lo <= hi → clamp (clamp v lo hi) lo hi == clamp v lo hi)
  ∧ (hi < lo → clamp v lo hi = hi).
Proof.
  unfold number in *. split; [apply clamp_bounds|]. split; [|split].
  - intros H1 H2. rewrite clamp_cases. repeat (destruct (decide _)); lra.
  - intros H. rewrite (clamp_cases (clamp v lo hi)).
    destruct (clamp_bounds v lo hi H) as [H1 H2]. unfold number in *.
    repeat (destruct (decide _)); lra.
  - intros H. rewrite clamp_cases. repeat (destruct (decide _)); try done; lra.
Qed.

Lemma clamp_keeps_within_range_witness :
  (0 <= clamp 300 0 240 ∧ clamp 300 0 240 <= 240)
  ∧ clamp 1 8 1 = 1.
Proof.
  destruct (clamp_keeps_within_range 300 0 240) as (H1 & _).
  destruct (clamp_keeps_within_range 1 8 1) as (_ & _ & _ & H4).
  split; [apply H1|apply H4]; by vm_compute.
Defined.

Lemma nextTarget_in_range (def : MetricDefinition) (random : number) :
  min def <= max def → 0 <= random → random <= 1 →
  min def <= nextTarget def random ∧ nextTarget def random <= max def.
Proof.
  intros Hdef H0 H1. unfold nextTarget, number in *.
  assert (0 <= random * (max def - min def)) as Ha by (apply Qmult_le_0_compat; lra).
  assert (0 <= (1 - random) * (max def - min def)) as Hb by (apply Qmult_le_0_compat; lra).
  assert ((1 - random) * (max def - min def)
          == max def - min def - random * (max def - min def)) as E by ring.
  rewrite E in Hb. set (p := random * (max def - min def)) in *. clearbody p.
  split; lra.
Qed.

Lemma updateValue_in_range (def : MetricDefinition) (state : MetricState)
      (random1 random2 : number) :
  min def <= max def →
  let '(v, state') := updateValue def state random1 random2 in
  value state' = v
  ∧ min def <= v ∧ v <= max def
  ∧ (min def <= target state → target state <= max def →
     0 <= random2 → random2 <= 1 →
     min def <= target state' ∧ target state' <= max def).
Proof.
  intros Hdef. unfold updateValue. cbn [value target].
  split; [done|].
  destruct (clamp_bounds
              (if decide (id def = "gear")
               then inject_Z (Math_round (value state + (target state - value state) * 0.02
                                          + (random1 - 0.5) * (max def - min def) * 0.002))
               else value state + (target state - value state) * 0.02
                    + (random1 - 0.5) * (max def - min def) * 0.002)
              (min def) (max def) Hdef) as [H1 H2]. split; [done|]. split; [done|].
  intros Ht1 Ht2 Hr0 Hr1. destruct (decide (Math_abs _ < _)); [|done].
  by apply nextTarget_in_range.
Qed.

(** The simulator stays in range.  For a metric whose [min] is at most
    its [max], as it is for each of the twenty metrics of the table,
    every value [updateValue] returns lies from [min] to [max], whatever
    the state was and whatever the random draws are, and it is the value
    the state then holds; a state initialised from draws between 0 and 1
    starts in range, and a target in range stays in range. *)
Theorem simulated_values_stay_in_range :
  Forall (λ def, min def <= max def) metrics
  ∧ (∀ (def : MetricDefinition) (state : MetricState) (draws : list (number * number)),
        min def <= max def →
        Forall (λ v, min def <= v ∧ v <= max def) (updates def state draws))
  ∧ (∀ (def : MetricDefinition) (state : MetricState) (random1 random2 : number),
        min def <= max def →
        value (updateValue def state random1 random2).2
        = (updateValue def state random1 random2).1
        ∧ (min def <= target state → target state <= max def →
           0 <= random2 → random2 <= 1 →
           min def <= target (updateValue def state random1 random2).2
           ∧ target (updateValue def state random1 random2).2 <= max def))
  ∧ (∀ (def : MetricDefinition) (random1 random2 : number),
        min def <= max def →
        0 <= random1 → random1 <= 1 → 0 <= random2 → random2 <= 1 →
        let state := initializeState def random1 random2 in
        (min def <= value state ∧ value state <= max def)
        ∧ (min def <= target state ∧ target state <= max def)).
Proof.
  split; [|split; [|split]].
  - repeat constructor; by vm_compute.
  - intros def state draws Hdef. revert state.
    induction draws as [|[r1 r2] draws IH]; intros state; [constructor|].
    cbn [updates]. pose proof (updateValue_in_range def state r1 r2 Hdef) as H.
    destruct (updateValue def state r1 r2) as [v state'].
    destruct H as (_ & H1 & H2 & _). constructor; [done|apply IH].
  - intros def state r1 r2 Hdef.
    pose proof (updateValue_in_range def state r1 r2 Hdef) as H.
    destruct (updateValue def state r1 r2) as [v state']. cbn [fst snd].
    destruct H as (H0 & _ & _ & H3). done.
  - intros def r1 r2 Hdef H1 H2 H3 H4 state. subst state.
    unfold initializeState. cbn [value target].
    split; by apply nextTarget_in_range.
Qed.

Lemma simulated_values_stay_in_range_witness :
  let def := mkDefinition "gear" "Gear" "" 1 8 5 None in
  Forall (λ v, min def <= v ∧ v <= max def)
         (updates def (mkState 8 8) [(1, 0.5); (0, 0.25); (0.75, 1)]).
Proof.
  intros def.
  apply (proj1 (proj2 simulated_values_stay_in_range) def (mkState 8 8)
               [(1, 0.5); (0, 0.25); (0.75, 1)]).
  by vm_compute.
Defined.

Lemma clamp_picks (v lo hi : number) :
  clamp v lo hi = v ∨ clamp v lo hi = lo ∨ clamp v lo hi = hi.
Proof.
  rewrite clamp_cases. repeat (destruct (decide _)); auto.
Qed.

(** The gear is a whole number: for the metric with id "gear", when
    [min] and [max] are whole numbers, the value [updateValue] returns
    is a whole number, and it lies from [min] to [max] when
    [min <= max]. *)
Theorem gear_is_a_whole_number (def : MetricDefinition) (state : MetricState)
        (random1 random2 : number) (lo hi : Z) :
  id def = "gear" → min def = inject_Z lo → max def = inject_Z hi →
  ∃ gear : Z,
    (updateValue def state random1 random2).1 = inject_Z gear
    ∧ ((lo ≤ hi)%Z → (lo ≤ gear ≤ hi)%Z).
Proof.
  intros Hid Hlo Hhi. unfold updateValue. cbn [fst].
  destruct (decide (id def = "gear")) as [_|]; [|done].
  set (next := Math_round _). clearbody next.
  assert (∃ gear, clamp (inject_Z next) (min def) (max def) = inject_Z gear)
    as [gear Hgear].
  { destruct (clamp_picks (inject_Z next) (min def) (max def)) as [->|[->| ->]];
      rewrite ?Hlo, ?Hhi; eauto. }
  exists gear. split; [done|]. intros Hle.
  destruct (clamp_bounds (inject_Z next) (min def) (max def)) as [H1 H2].
  { rewrite Hlo, Hhi. by rewrite <- Zle_Qle. }
  rewrite Hgear in H1, H2. rewrite Hlo in H1. rewrite Hhi in H2.
  rewrite <- Zle_Qle in H1, H2. done.
Qed.

Lemma gear_is_a_whole_number_witness :
  ∃ gear : Z,
    (updateValue (mkDefinition "gear" "Gear" "" 1 8 5 None) (mkState 3.4 6.2)
                 0.9 0.3).1 = inject_Z gear
    ∧ ((1 ≤ 8)%Z → (1 ≤ gear ≤ 8)%Z).
Proof.
  apply (gear_is_a_whole_number (mkDefinition "gear" "Gear" "" 1 8 5 None)
                                (mkState 3.4 6.2) 0.9 0.3 1 8); reflexivity.
Defined.

End SimulatorProofs.
